(** * GRAND group anomaly detection: the orchestration layer

    A shallow embedding of [grand/group_anomaly/group_anomaly.py].
    [GroupAnomaly.predict] is translated statement by statement; the object's
    mutable fields become a record that every operation takes and returns,
    and a Python exception becomes the [Raised] branch of [outcome], next to
    the state the object is left in.

    The modules the file imports ([grand.utils], [PeerGrouping],
    [Transformer], [IndividualAnomalyInductive]) live in other files of the
    package.  They are modelled from the specification, and what the
    specification leaves open (the scoring policies, the martingale update,
    the rank transform, the random generator) is gathered in the interface
    [Engines].  [TrailingMartingale] is the martingale update the
    specification names, with the betting function as its parameter.

    Numbers that are floats in Python are rationals here. *)

From Stdlib Require Import ZArith QArith Qabs Lia Lqa.
From stdpp Require Import base list strings sorting.

Set Default Proof Using "Type".

(** ** Data model *)

(** A timestamp; a duration such as ["7days"] is a difference of
    timestamps. *)
Abbreviation Time := Z (only parsing).

(** A sample is a feature vector. *)
Abbreviation Sample := (list Q) (only parsing).

(** A unit's time series: (timestamp, sample) pairs in arrival order. *)
Abbreviation DataFrame := (list (Z * list Q)) (only parsing).

(** The exceptions that can travel through [predict]. [IndexError] is
    Python's own, raised by [a_list[i]] when [i] is out of range. *)
Inductive exn : Type :=
  | TestUnitError
  | NoRefGroupError
  | InsufficientReferenceError
  | IndexError.

(** The result of a call: it returns a value or raises. *)
Inductive outcome (A : Type) : Type :=
  | Returned (a : A)
  | Raised (e : exn).
Arguments Returned {A} a.
Arguments Raised {A} e.

Inductive NonConformity : Type := median | knn | lof.

(** The [transformer] option: [None] or ["pvalue"]. *)
Inductive TransformerKind : Type := no_transform | pvalue_transform.

(** ** What the specification leaves to the implementer *)

Class Engines : Type := {
  (** the fitted strangeness model and the two halves of a scoring policy *)
  Model : Type;
  fit_policy : NonConformity → Z → list Sample → Model;
  score_policy : Model → Sample → Q;
  (** the seeded generator behind the p-value tie-break *)
  Rng : Type;
  uniform : Rng → Q * Rng;
  (** the running martingale: [martingale_update w m p] folds the p-value
      [p] into [m] and gives the deviation level over the window [w] *)
  Martingale : Type;
  martingale_init : Martingale;
  martingale_update : nat → Martingale → Q → Martingale * Q;
  (** the per-unit stateful preprocessing *)
  Transformer : Type;
  Transformer_new : nat → TransformerKind → Transformer;
  transform : Transformer → Sample → Transformer * Sample
}.

(** ** grand.utils *)

Module utils.

Record DeviationContext : Type := mkDeviationContext {
  strangeness : Q;
  pvalue : Q;
  deviation : Q;
  is_deviating : bool
}.

(** Modelled from the spec: [append_to_df] is defined in [grand/utils.py].
    A time series is append-only; appending puts the pair at the end and
    leaves every earlier entry alone. *)
Definition append_to_df (df : DataFrame) (dt : Time) (x : Sample) : DataFrame :=
  df ++ [(dt, x)].

End utils.
Export utils.

(** ** PeerGrouping *)

Module PeerGrouping.

Record t : Type := mk { w_ref_group : Z }.

(** The closed window [[dt - w_ref_group, dt]]. *)
Definition in_window (w : Z) (dt ts : Time) : bool :=
  ((dt - w <=? ts) && (ts <=? dt))%Z.

(** The unit's sample at timestamp [dt]: the latest entry carrying that
    timestamp, if there is one. *)
Fixpoint sample_at (df : DataFrame) (dt : Time) : option Sample :=
  match df with
  | [] => None
  | (ts, x) :: df' =>
      match sample_at df' dt with
      | Some y => Some y
      | None => if (ts =? dt)%Z then Some x else None
      end
  end.

(** The samples of one unit whose timestamp falls in the window. *)
Fixpoint window_samples (w : Z) (dt : Time) (df : DataFrame) : list Sample :=
  match df with
  | [] => []
  | (ts, x) :: df' =>
      if in_window w dt ts then x :: window_samples w dt df'
      else window_samples w dt df'
  end.

(** The window samples of every unit but [uid_test], flattened; [i] is the
    index of the first frame of [dffs]. *)
Fixpoint collect_reference (w : Z) (uid_test : nat) (dt : Time)
    (i : nat) (dffs : list DataFrame) : list Sample :=
  match dffs with
  | [] => []
  | df :: dffs' =>
      (if (i =? uid_test)%nat then [] else window_samples w dt df)
        ++ collect_reference w uid_test dt (S i) dffs'
  end.

(** Modelled from the spec: [PeerGrouping.get_target_and_reference] is
    defined in [grand/group_anomaly/peer_grouping.py].  (a) locate the
    target's sample at [dt], [TestUnitError] if absent; (b) the window is
    closed at both ends; (c) collect the peers' samples in the window,
    [NoRefGroupError] if there is none. *)
Definition get_target_and_reference (self : t) (uid_test : nat) (dt : Time)
    (dffs : list DataFrame) : outcome (Sample * list Sample) :=
  match dffs !! uid_test ≫= (λ df, sample_at df dt) with
  | None => Raised TestUnitError
  | Some x =>
      match collect_reference (w_ref_group self) uid_test dt 0 dffs with
      | [] => Raised NoRefGroupError
      | Xref => Returned (x, Xref)
      end
  end.

End PeerGrouping.

(** ** StrangenessScorer *)

Module StrangenessScorer.
Section Scorer.
Context `{E : Engines}.

(** Modelled from the spec: the scorer is defined with the detector, in
    another file of the package.  [fit] fails with [InsufficientReferenceError] on an empty reference set and,
    for [knn], when [k] is [0]; otherwise the policy builds the model. *)
Definition fit (nc : NonConformity) (k : Z) (reference : list Sample)
    : outcome Model :=
  match reference with
  | [] => Raised InsufficientReferenceError
  | _ :: _ =>
      match nc with
      | knn => if (k =? 0)%Z then Raised InsufficientReferenceError
               else Returned (fit_policy nc k reference)
      | _ => Returned (fit_policy nc k reference)
      end
  end.

(** Scoring needs a fitted model; without one there is no reference. *)
Definition score (m : option Model) (x : Sample) : outcome Q :=
  match m with
  | None => Raised InsufficientReferenceError
  | Some m => Returned (score_policy m x)
  end.

End Scorer.
End StrangenessScorer.

(** ** IndividualAnomalyInductive *)

Module IndividualAnomalyInductive.
Section Detector.
Context `{E : Engines}.

(** The detector's configuration, its fitted model, the martingale and the
    recorded sequences [T], [S], [P], [M]. *)
Record t : Type := mk {
  w_martingale : nat;
  non_conformity : NonConformity;
  k : Z;
  dev_threshold : Q;
  model : option Model;
  mart : Martingale;
  seq_T : list Time;
  seq_S : list Q;
  seq_P : list Q;
  seq_M : list Q
}.

Definition init (w_martingale : nat) (non_conformity : NonConformity)
    (k : Z) (dev_threshold : Q) : t :=
  mk w_martingale non_conformity k dev_threshold None martingale_init [] [] [] [].

Definition set_model (self : t) (m : Model) : t :=
  mk (w_martingale self) (non_conformity self) (k self) (dev_threshold self)
     (Some m) (mart self) (seq_T self) (seq_S self) (seq_P self) (seq_M self).

(** Modelled from the spec: [fit] refits the scorer's model to the
    reference group and replaces the previous one. *)
Definition fit (self : t) (X : list Sample) : outcome t :=
  match StrangenessScorer.fit (non_conformity self) (k self) X with
  | Raised e => Raised e
  | Returned m => Returned (set_model self m)
  end.

Fixpoint count (f : Q → bool) (l : list Q) : nat :=
  match l with
  | [] => 0
  | v :: l' => (if f v then 1 else 0) + count f l'
  end.

(** Modelled from the spec: the conformal p-value with randomised
    tie-break.  Among the recorded strangeness values, the new one
    counted with them as in the standard construction, it is the
    fraction of values above the new one plus [theta] times the fraction
    of exact ties. *)
Definition conformal_pvalue (theta : Q) (history : list Q) (s : Q) : Q :=
  let scores := history ++ [s] in
  let above := count (λ v, negb (Qle_bool v s)) scores in
  let ties := count (λ v, Qeq_bool v s) scores in
  ((inject_Z (Z.of_nat above) + theta * inject_Z (Z.of_nat ties))
     / inject_Z (Z.of_nat (length scores)))%Q.

(** Modelled from the spec: [predict], steps 1 to 5 of the detector.
    The generator [g] is the ambient random source; it comes back
    advanced by one draw. *)
Definition predict (self : t) (g : Rng) (dt : Time) (x : Sample)
    : outcome (t * Rng * DeviationContext) :=
  match StrangenessScorer.score (model self) x with
  | Raised e => Raised e
  | Returned s =>
      let '(theta, g') := uniform g in
      let p := conformal_pvalue theta (seq_S self) s in
      let '(mart', d) := martingale_update (w_martingale self) (mart self) p in
      let deviating := Qle_bool (dev_threshold self) d in
      let self' :=
        mk (w_martingale self) (non_conformity self) (k self)
           (dev_threshold self) (model self) mart'
           (seq_T self ++ [dt]) (seq_S self ++ [s])
           (seq_P self ++ [p]) (seq_M self ++ [d]) in
      Returned (self', g', mkDeviationContext s p d deviating)
  end.

End Detector.
End IndividualAnomalyInductive.

(** ** The martingale of the detector *)

Module TrailingMartingale.
Section Martingale.

(** The betting function, with its fixed parameter; for the power
    martingale it is [fun p => eps * p ^ (eps - 1)]. *)
Variable bet : Q → Q.

(** The raw martingale: the product of the bets on the p-values seen so
    far, [1] before the first.  [history] holds its past values, oldest
    first. *)
Definition raw_value (history : list Q) (p : Q) : Q :=
  (default 1 (last history) * bet p)%Q.

Definition larger (x y : Q) : Q := if Qle_bool x y then y else x.

(** The greatest of non-negative values, [0] if there are none. *)
Fixpoint greatest (l : list Q) : Q :=
  match l with
  | [] => 0%Q
  | x :: l' => larger x (greatest l')
  end.

(** The last [w] values. *)
Definition trailing (w : nat) (l : list Q) : list Q :=
  drop (length l - w) l.

(** Modelled from the spec: step 3 of [predict], which is defined with the
    detector in another file of the package.  The raw martingale is
    updated by the bet on the p-value, and the deviation level is its
    trailing normalisation over the last [w_martingale] steps: the new raw
    value divided by the greatest raw value of the window, [0] when the
    window holds nothing positive. *)
Definition update (w : nat) (history : list Q) (p : Q) : list Q * Q :=
  let m := raw_value history p in
  let history := history ++ [m] in
  let top := greatest (trailing w history) in
  (history, if Qle_bool top 0 then 0%Q else (m / top)%Q).

(** The open parts [E], with this martingale as the detector's. *)
Definition engines (E : Engines) : Engines := {|
  Model := @Model E;
  fit_policy := @fit_policy E;
  score_policy := @score_policy E;
  Rng := @Rng E;
  uniform := @uniform E;
  Martingale := list Q;
  martingale_init := [];
  martingale_update := update;
  Transformer := @Transformer E;
  Transformer_new := @Transformer_new E;
  transform := @transform E
|}.

End Martingale.
End TrailingMartingale.

(** ** GroupAnomaly *)

Module GroupAnomaly.
Section Group.
Context `{E : Engines}.

Abbreviation Detector := IndividualAnomalyInductive.t.

(** The fields set by [__init__].  [random_state] is the generator the
    tie-break draws from: the constructor hands none to the detectors, so
    it is state of the process, kept here to make [predict] a function. *)
Record t : Type := mk {
  nb_units : nat;
  ids_target_units : list nat;
  w_ref_group : Z;
  w_martingale : nat;
  non_conformity : NonConformity;
  k : Z;
  dev_threshold : Q;
  transformer : TransformerKind;
  w_transform : nat;
  dfs_original : list DataFrame;
  dfs : list DataFrame;
  pg : PeerGrouping.t;
  detectors : list Detector;
  transformers : list Transformer;
  random_state : Rng
}.

(** [__init__]: one empty raw and transformed history, one detector and
    one transformer per unit. *)
Definition init (nb_units : nat) (ids_target_units : list nat)
    (w_ref_group : Z) (w_martingale : nat) (non_conformity : NonConformity)
    (k : Z) (dev_threshold : Q) (transformer : TransformerKind)
    (w_transform : nat) (seed : Rng) : t :=
  mk nb_units ids_target_units w_ref_group w_martingale non_conformity k
     dev_threshold transformer w_transform
     (replicate nb_units [])
     (replicate nb_units [])
     (PeerGrouping.mk w_ref_group)
     (replicate nb_units
        (IndividualAnomalyInductive.init w_martingale non_conformity k dev_threshold))
     (replicate nb_units (Transformer_new w_transform transformer))
     seed.

Definition set_dfs_original (self : t) (v : list DataFrame) : t :=
  mk (nb_units self) (ids_target_units self) (w_ref_group self)
     (w_martingale self) (non_conformity self) (k self) (dev_threshold self)
     (transformer self) (w_transform self)
     v (dfs self) (pg self) (detectors self) (transformers self)
     (random_state self).

Definition set_dfs (self : t) (v : list DataFrame) : t :=
  mk (nb_units self) (ids_target_units self) (w_ref_group self)
     (w_martingale self) (non_conformity self) (k self) (dev_threshold self)
     (transformer self) (w_transform self)
     (dfs_original self) v (pg self) (detectors self) (transformers self)
     (random_state self).

Definition set_transformers (self : t) (v : list Transformer) : t :=
  mk (nb_units self) (ids_target_units self) (w_ref_group self)
     (w_martingale self) (non_conformity self) (k self) (dev_threshold self)
     (transformer self) (w_transform self)
     (dfs_original self) (dfs self) (pg self) (detectors self) v
     (random_state self).

(** The detector object at index [uid] is mutated in place. *)
Definition set_detector (self : t) (uid : nat) (d : Detector) : t :=
  mk (nb_units self) (ids_target_units self) (w_ref_group self)
     (w_martingale self) (non_conformity self) (k self) (dev_threshold self)
     (transformer self) (w_transform self)
     (dfs_original self) (dfs self) (pg self)
     (<[uid := d]> (detectors self)) (transformers self)
     (random_state self).

Definition set_random_state (self : t) (g : Rng) : t :=
  mk (nb_units self) (ids_target_units self) (w_ref_group self)
     (w_martingale self) (non_conformity self) (k self) (dev_threshold self)
     (transformer self) (w_transform self)
     (dfs_original self) (dfs self) (pg self) (detectors self)
     (transformers self) g.

(** [[append_to_df(frames[i], dt, x) for i, x in enumerate(xs)]], the
    enumeration starting at [i]; [frames[i]] raises [IndexError] past the
    end of [frames]. *)
Fixpoint append_all (frames : list DataFrame) (dt : Time) (i : nat)
    (xs : list Sample) : outcome (list DataFrame) :=
  match xs with
  | [] => Returned []
  | x :: xs' =>
      match frames !! i with
      | None => Raised IndexError
      | Some df =>
          match append_all frames dt (S i) xs' with
          | Raised e => Raised e
          | Returned rest => Returned (append_to_df df dt x :: rest)
          end
      end
  end.

(** [[transformer.transform(x) for x, transformer in zip(xs, trs)]]:
    [zip] stops at the shorter list, each transformer met is advanced in
    place, the others are left as they are. *)
Fixpoint transform_all (xs : list Sample) (trs : list Transformer)
    : list Transformer * list Sample :=
  match xs, trs with
  | x :: xs', tr :: trs' =>
      let '(tr', y) := transform tr x in
      let '(trs'', ys) := transform_all xs' trs' in
      (tr' :: trs'', y :: ys)
  | _, _ => (trs, [])
  end.

(** [DeviationContext(0, 0.5, 0, False)], no deviation by default. *)
Definition default_context : DeviationContext :=
  mkDeviationContext 0 0.5 0 false.

(** [except (TestUnitError, NoRefGroupError)]: these two are replaced by
    the default context, any other exception goes on. *)
Definition except_clause (e : exn) : outcome DeviationContext :=
  match e with
  | TestUnitError | NoRefGroupError => Returned default_context
  | _ => Raised e
  end.

(** The body of the loop over the target units, for one [uid]. *)
Definition diagnose (self : t) (dt : Time) (uid : nat)
    : t * outcome DeviationContext :=
  match detectors self !! uid with
  | None => (self, Raised IndexError)
  | Some detector =>
      match PeerGrouping.get_target_and_reference (pg self) uid dt (dfs self) with
      | Raised e => (self, except_clause e)
      | Returned (x, Xref) =>
          match IndividualAnomalyInductive.fit detector Xref with
          | Raised e => (self, except_clause e)
          | Returned fitted =>
              let self := set_detector self uid fitted in
              match IndividualAnomalyInductive.predict
                      fitted (random_state self) dt x with
              | Raised e => (self, except_clause e)
              | Returned (detector', g', devContext) =>
                  (set_random_state (set_detector self uid detector') g',
                   Returned devContext)
              end
          end
      end
  end.

(** [for uid in self.ids_target_units: ...; deviations.append(devContext)] *)
Fixpoint predict_loop (self : t) (dt : Time) (ids : list nat)
    (deviations : list DeviationContext)
    : t * outcome (list DeviationContext) :=
  match ids with
  | [] => (self, Returned deviations)
  | uid :: ids' =>
      match diagnose self dt uid with
      | (self', Returned devContext) =>
          predict_loop self' dt ids' (deviations ++ [devContext])
      | (self', Raised e) => (self', Raised e)
      end
  end.

(** Lines 95 to 98 of [predict]: every raw sample is appended to its
    unit's raw history, transformed by its unit's transformer, and the
    result appended to the transformed history.  Each assignment takes
    effect only when its right-hand side was built without raising. *)
Definition ingest (self : t) (dt : Time) (x_units : list Sample)
    : t * outcome unit :=
  match append_all (dfs_original self) dt 0 x_units with
  | Raised e => (self, Raised e)
  | Returned dfs_original' =>
      let self := set_dfs_original self dfs_original' in
      let '(transformers', x_units_tr) :=
        transform_all x_units (transformers self) in
      let self := set_transformers self transformers' in
      match append_all (dfs self) dt 0 x_units_tr with
      | Raised e => (self, Raised e)
      | Returned dfs' => (set_dfs self dfs', Returned ())
      end
  end.

(** [predict(self, dt, x_units)]: the object after the call, and what the
    call returned or raised. *)
Definition predict (self : t) (dt : Time) (x_units : list Sample)
    : t * outcome (list DeviationContext) :=
  match ingest self dt x_units with
  | (self, Raised e) => (self, Raised e)
  | (self, Returned _) => predict_loop self dt (ids_target_units self) []
  end.

(** A stream of steps, as the caller's loop over [dataset.stream()]
    drives it: what each call returned, up to and including the first
    call that raised, which ends the loop. *)
Fixpoint run (self : t) (stream : list (Time * list Sample))
    : t * list (outcome (list DeviationContext)) :=
  match stream with
  | [] => (self, [])
  | (dt, x_units) :: stream' =>
      match predict self dt x_units with
      | (self', Raised e) => (self', [Raised e])
      | (self', Returned devs) =>
          let '(self'', outs) := run self' stream' in
          (self'', Returned devs :: outs)
      end
  end.

(** The states a system can be in: freshly constructed, or after one more
    call of [predict], whatever the call was given and however it ended. *)
Inductive reachable (s0 : t) : t → Prop :=
  | reachable_init : reachable s0 s0
  | reachable_step self dt x_units :
      reachable s0 self → reachable s0 (predict self dt x_units).1.

(** The same, when every call was given one sample per unit. *)
Inductive reachable_full (s0 : t) : t → Prop :=
  | reachable_full_init : reachable_full s0 s0
  | reachable_full_step self dt x_units :
      reachable_full s0 self →
      length x_units = nb_units s0 →
      reachable_full s0 (predict self dt x_units).1.

(** *** [plot_deviations]: the axes asked for and the panels drawn on them

    Lines 117 to 188.  The calls into matplotlib and pandas are not
    modelled by what they draw but by whether they return: any of them can
    raise, and the call then ends where it stands.  What is kept is the
    handling of the [plots] argument, the count [nb_axs] of axes asked of
    [plt.subplots], the index [i] of the axis each block draws on, and the
    place where the call ends. *)

(** [a_list.remove(x)]: the first occurrence of [x] goes, the others stay.
    The caller has checked [x in a_list]. *)
Fixpoint list_remove (x : string) (l : list string) : list string :=
  match l with
  | [] => []
  | y :: l' => if decide (y = x) then l' else y :: list_remove x l'
  end.

(** [x in plots] *)
Definition py_in (x : string) (plots : list string) : bool :=
  bool_decide (x ∈ plots).

(** [any(s in ["pvalue", "deviation", "threshold"] for s in plots)] *)
Definition any_deviation_plot (plots : list string) : bool :=
  existsb (λ s, py_in s ["pvalue"; "deviation"; "threshold"]) plots.

(** The default value of [plots]: one list object, made when the function
    is defined and shared by every call that leaves [plots] out. *)
Definition default_plots : list string :=
  ["data"; "transformed_data"; "strangeness"; "deviation"; "threshold"].

(** The four blocks of lines 138 to 180. *)
Inductive Panel : Type :=
  | data_panel
  | transformed_data_panel
  | strangeness_panel
  | deviation_panel.

(** The library calls of one call of [plot_deviations], each by whether it
    returns ([true]) or raises ([false]):
    [register_matplotlib_converters()] of line 120; [plt.subplots(n, ...)]
    of line 135, which returns [n] axes when it returns; the calls of a
    block other than the indexing [axs[i]], among them the frame and
    detector look-ups and [df.values[:, 0]] of lines 142 to 143, 149 to 154
    and 162 to 163; the calls of lines 182 to 188. *)
Record Matplotlib : Type := mkMatplotlib {
  register_converters : bool;
  subplots : nat → bool;
  draw : Panel → bool;
  show : bool
}.

(** Where a call ends. *)
Inductive PlotEnd : Type :=
  | shown
  | converters_raised
  | subplots_raised
  | axis_out_of_range (i : nat)
  | drawing_raised (p : Panel)
  | show_raised.

(** What a call leaves behind: the list object that was passed as [plots]
    (line 123 mutates it), the number of axes asked for, the blocks that
    were entered, each with the index of the axis it took, and where the
    call ended. *)
Record Plotting : Type := mkPlotting {
  plots_object : list string;
  nb_axs : nat;
  axes_used : list (nat * Panel);
  ending : PlotEnd
}.

(** One block: [if named: axs[i]. ...].  The block first indexes [axs],
    which has [nb_axs] entries, then draws. *)
Definition plot_block (m : Matplotlib) (nb_axs : nat) (named : bool)
    (p : Panel) (used : list (nat * Panel)) (i : nat)
    : list (nat * Panel) * option PlotEnd :=
  if named then
    if decide (i < nb_axs)%nat then
      (used ++ [(i, p)], if draw m p then None else Some (drawing_raised p))
    else (used, Some (axis_out_of_range i))
  else (used, None).

(** Lines 120 to 188.  [list(set(plots))] keeps one copy of each name, in
    an order that nothing below depends on. *)
Definition plot_deviations (m : Matplotlib) (self : t) (plots : list string)
    : Plotting :=
  if negb (register_converters m) then mkPlotting plots 0 [] converters_raised
  else
  let plots_object :=
    match transformer self with
    | no_transform =>
        if py_in "transformed_data" plots
        then list_remove "transformed_data" plots else plots
    | pvalue_transform => plots
    end in
  let plots := remove_dups plots_object in
  let nb_axs := 0%nat in
  let nb_axs := if py_in "data" plots then (nb_axs + 1)%nat else nb_axs in
  let nb_axs := if py_in "transformed_data" plots then (nb_axs + 1)%nat else nb_axs in
  let nb_axs := if py_in "strangeness" plots then (nb_axs + 1)%nat else nb_axs in
  let nb_axs := if any_deviation_plot plots then (nb_axs + 1)%nat else nb_axs in
  if negb (subplots m nb_axs) then mkPlotting plots_object nb_axs [] subplots_raised
  else
  let i := 0%nat in
  match plot_block m nb_axs (py_in "data" plots) data_panel [] i with
  | (used, Some e) => mkPlotting plots_object nb_axs used e
  | (used, None) =>
  let i := if py_in "data" plots then (i + 1)%nat else i in
  match plot_block m nb_axs (py_in "transformed_data" plots)
          transformed_data_panel used i with
  | (used, Some e) => mkPlotting plots_object nb_axs used e
  | (used, None) =>
  let i := if py_in "transformed_data" plots then (i + 1)%nat else i in
  match plot_block m nb_axs (py_in "strangeness" plots)
          strangeness_panel used i with
  | (used, Some e) => mkPlotting plots_object nb_axs used e
  | (used, None) =>
  let i := if py_in "strangeness" plots then (i + 1)%nat else i in
  match plot_block m nb_axs (any_deviation_plot plots)
          deviation_panel used i with
  | (used, Some e) => mkPlotting plots_object nb_axs used e
  | (used, None) =>
      mkPlotting plots_object nb_axs used (if show m then shown else show_raised)
  end end end end.

(** A call that leaves [plots] out: it works on the shared default object,
    [defaults] being its present content, and leaves it as line 123 made
    it. *)
Definition plot_deviations_default (m : Matplotlib) (self : t)
    (defaults : list string) : list string * Plotting :=
  let plotting := plot_deviations m self defaults in
  (plots_object plotting, plotting).

(** *** [plot_explanations]: the features that are shown

    Lines 199 to 202.  [columns] is [sub_diffs_df.values.T], one list per
    feature; [argsort] is [numpy.argsort]. *)

Fixpoint Qsum (l : list Q) : Q :=
  match l with
  | [] => 0%Q
  | x :: l' => (x + Qsum l')%Q
  end.

(** [np.abs(col).mean()] *)
Definition abs_mean (col : list Q) : Q :=
  (Qsum (map Qabs col) / inject_Z (Z.of_nat (length col)))%Q.

(** [a_list[-n:]] for a Python integer [n]: the last [n] elements, all of
    them when [n] is [0] or exceeds the length, and [a_list[|n|:]] when [n]
    is negative. *)
Definition slice_last {A} (n : Z) (l : list A) : list A :=
  if (0 <? n)%Z then drop (length l - Z.to_nat n) l
  else drop (Z.to_nat (- n)) l.

(** Lines 200 and 201: the mean absolute difference of each feature, as a
    percentage of their sum.  The rationals stand for numpy's binary64
    values: what is proved of the scores is about their order as listed,
    not about their exact values. *)
Definition features_scores (columns : list (list Q)) : list Q :=
  let scores := map abs_mean columns in
  map (λ s, (100 * s / Qsum scores)%Q) scores.

(** Lines 199 to 202: the number of rows of the figure, the scores, and
    [features_ids]. *)
Definition plot_explanations_features (argsort : list Q → list nat)
    (nb_features : Z) (columns : list (list Q)) : Z * list Q * list nat :=
  let nb_features := Z.min nb_features (Z.of_nat (length columns)) in
  let scores := features_scores columns in
  let features_ids := reverse (slice_last nb_features (argsort scores)) in
  (nb_features, scores, features_ids).

End Group.
End GroupAnomaly.

(** ** examples/group_anomaly_example.py *)

Module group_anomaly_example.
Section Example.
Context `{E : Engines}.

(** What one [print] of line 30 shows. *)
Record Line : Type := mkLine {
  line_unit : nat;
  line_time : Z;
  line_strangeness : Q;
  line_pvalue : Q;
  line_deviation : Q;
  line_level : string
}.

(** Lines 29 to 31: [for uid, devCon in enumerate(devContextList): print(...)] *)
Definition report (dt : Time) (devContextList : list DeviationContext)
    : list Line :=
  imap (λ uid devCon,
          mkLine uid dt (strangeness devCon) (pvalue devCon) (deviation devCon)
                 (if is_deviating devCon then "high" else "low"))
       devContextList.

(** Lines 24 to 31: the loop over the stream; the lines printed so far, and
    the exception that ended the loop if one did. *)
Fixpoint stream_loop (gdev : GroupAnomaly.t)
    (stream : list (Time * list Sample))
    : GroupAnomaly.t * list Line * option exn :=
  match stream with
  | [] => (gdev, [], None)
  | (dt, x_units) :: stream' =>
      match GroupAnomaly.predict gdev dt x_units with
      | (gdev, Raised e) => (gdev, [], Some e)
      | (gdev, Returned devContextList) =>
          let '(gdev', printed, ended) := stream_loop gdev stream' in
          (gdev', report dt devContextList ++ printed, ended)
      end
  end.

(** Lines 12 to 20: the object the script builds; [seven_days] is the
    duration ["7days"] in the unit of the timestamps. *)
Definition gdev (nb_units : nat) (seven_days : Z) (seed : Rng) : GroupAnomaly.t :=
  GroupAnomaly.init nb_units [0; 1; 2; 3; 4]%nat seven_days 15 median 50 0.6
    no_transform 30 seed.

End Example.
End group_anomaly_example.

(** ** Vocabulary of the properties *)

(** The unit [uid] has a sample stamped [dt]. *)
Definition has_sample_at (dffs : list DataFrame) (uid : nat) (dt : Time) : Prop :=
  ∃ df x, dffs !! uid = Some df ∧ (dt, x) ∈ df.

(** [s] is a sample of a unit other than [uid], stamped inside
    [[dt - w, dt]]. *)
Definition peer_sample (w : Z) (dffs : list DataFrame) (uid : nat)
    (dt : Time) (s : Sample) : Prop :=
  ∃ j df ts, j ≠ uid ∧ dffs !! j = Some df ∧ (ts, s) ∈ df ∧ (dt - w ≤ ts ≤ dt)%Z.

(** How many times a name occurs in a list of plot names. *)
Definition occurrences (x : string) (l : list string) : nat :=
  length (filter (λ y, y = x) l).

(** What [numpy.argsort] promises: the indices of the list, each once, in
    an order in which the values ascend. *)
Definition sorts_ascending (argsort : list Q → list nat) : Prop :=
  ∀ l, argsort l ≡ₚ seq 0 (length l) ∧
       ∀ i j a b u v,
         (i ≤ j)%nat → argsort l !! i = Some a → argsort l !! j = Some b →
         l !! a = Some u → l !! b = Some v → (u <= v)%Q.

(** Differences from which numpy gets proper scores: every feature has a
    row, and the differences are not all zero. *)
Definition proper_diffs (columns : list (list Q)) : Prop :=
  Forall (λ col, col ≠ []) columns ∧
  ∃ col v, col ∈ columns ∧ v ∈ col ∧ ¬ (v == 0)%Q.

Section Vocabulary.
Context `{E : Engines}.
Import GroupAnomaly.

(** Two detectors with the same configuration. *)
Definition same_config (d d' : IndividualAnomalyInductive.t) : Prop :=
  IndividualAnomalyInductive.w_martingale d' = IndividualAnomalyInductive.w_martingale d ∧
  IndividualAnomalyInductive.non_conformity d' = IndividualAnomalyInductive.non_conformity d ∧
  IndividualAnomalyInductive.k d' = IndividualAnomalyInductive.k d ∧
  IndividualAnomalyInductive.dev_threshold d' = IndividualAnomalyInductive.dev_threshold d.

(** The lists of per-unit state all have one entry per unit. *)
Definition well_formed (self : t) : Prop :=
  length (dfs_original self) = nb_units self ∧
  length (dfs self) = nb_units self ∧
  length (detectors self) = nb_units self ∧
  length (transformers self) = nb_units self.

(** What the loop may change: the detectors, never their configuration,
    and the generator. *)
Definition loop_step (s s' : t) : Prop :=
  nb_units s' = nb_units s ∧
  ids_target_units s' = ids_target_units s ∧
  pg s' = pg s ∧
  dev_threshold s' = dev_threshold s ∧
  dfs_original s' = dfs_original s ∧
  dfs s' = dfs s ∧
  transformers s' = transformers s ∧
  Forall2 same_config (detectors s) (detectors s').

(** What any call keeps: the configuration of the object and of each of
    its detectors. *)
Definition evolves (s s' : t) : Prop :=
  nb_units s' = nb_units s ∧
  ids_target_units s' = ids_target_units s ∧
  pg s' = pg s ∧
  dev_threshold s' = dev_threshold s ∧
  Forall2 same_config (detectors s) (detectors s').

(** The raw and the transformed history of each unit have the same
    length. *)
Definition histories_aligned (self : t) : Prop :=
  ∀ i raw df, dfs_original self !! i = Some raw → dfs self !! i = Some df →
              length raw = length df.

(** The entries that a stream of steps holds for unit [i]. *)
Definition column (i : nat) (stream : list (Time * list Sample))
    : list (Time * Sample) :=
  omap (λ step, (λ x, (step.1, x)) <$> step.2 !! i) stream.

(** A transformer fed a unit's entries one after the other: the
    transformer it ends as, and the entries it produced. *)
Fixpoint transform_entries (tr : Transformer) (entries : list (Time * Sample))
    : Transformer * list (Time * Sample) :=
  match entries with
  | [] => (tr, [])
  | (dt, x) :: entries' =>
      let '(tr', y) := transform tr x in
      let '(tr'', out) := transform_entries tr' entries' in
      (tr'', (dt, y) :: out)
  end.

End Vocabulary.

(** ** A small instance of the open parts

    Strangeness is the L1 distance to the first reference sample, the
    generator walks through 1, 1/2, 1/3, ..., the deviation level is
    [1 - p] cut to [[0,1]], and no transform is configured. *)

Module SimpleEngines.

Fixpoint l1_distance (x y : Sample) : Q :=
  match x, y with
  | a :: x', b :: y' => (Qabs (a - b) + l1_distance x' y')%Q
  | _, _ => 0%Q
  end.

Definition clamp_unit (q : Q) : Q :=
  if Qle_bool q 0 then 0%Q else if Qle_bool 1 q then 1%Q else q.

#[export] Instance engines : Engines := {|
  Model := Sample;
  fit_policy := λ _ _ reference, default [] (head reference);
  score_policy := λ m x, l1_distance x m;
  Rng := nat;
  uniform := λ n, ((1 # Pos.of_succ_nat n)%Q, S n);
  Martingale := unit;
  martingale_init := tt;
  martingale_update := λ _ m p, (m, clamp_unit (1 - p));
  Transformer := unit;
  Transformer_new := λ _ _, tt;
  transform := λ tr x, (tr, x)
|}.



(** Three fleets used as concrete inputs: one unit alone with a zero
    threshold; two units, the first one the target; the same two with
    [knn] and [k = 0]; three units with the middle one no target. *)
Definition lone_unit : GroupAnomaly.t :=
  GroupAnomaly.init 1 [0%nat] 7 15 median 20 0 no_transform 30 0%nat.

Definition two_units : GroupAnomaly.t :=
  GroupAnomaly.init 2 [0%nat] 7 15 median 20 0.6 no_transform 30 0%nat.

Definition two_units_knn0 : GroupAnomaly.t :=
  GroupAnomaly.init 2 [0%nat] 7 15 knn 0 0.6 no_transform 30 0%nat.

Definition three_units : GroupAnomaly.t :=
  GroupAnomaly.init 3 [0%nat; 2%nat] 7 15 median 20 0.6 no_transform 30 0%nat.

(** A sorting [argsort]: the indices merge-sorted by their values. *)
Definition value_at (l : list Q) (a : nat) : Q := default 0%Q (l !! a).

Definition Qle_decision (x y : Q) : Decision (x <= y)%Q :=
  match Qlt_le_dec y x with
  | left Hlt => right (Qlt_not_le _ _ Hlt)
  | right Hle => left Hle
  end.

Definition merge_argsort (l : list Q) : list nat :=
  @merge_sort nat (λ a b, (value_at l a <= value_at l b)%Q)
    (λ a b, Qle_decision _ _) (seq 0 (length l)).

(** The differences of three features over two rows. *)
Definition three_features : list (list Q) :=
  [[1; -3]; [0; 0]; [2; 2]]%Q.

(** Two units and a target id, 5, that is no unit. *)
Definition two_units_bad_target : GroupAnomaly.t :=
  GroupAnomaly.init 2 [0%nat; 5%nat] 7 15 median 20 0.6 no_transform 30 0%nat.

(** Two units whose data goes through the ["pvalue"] transformer. *)
Definition two_units_pvalue : GroupAnomaly.t :=
  GroupAnomaly.init 2 [0%nat] 7 15 median 20 0.6 pvalue_transform 30 0%nat.

End SimpleEngines.

(** * Properties *)

(** ** The peer group *)

Section PeerGroupingFacts.
Import PeerGrouping.

Lemma sample_at_elem_of (df : DataFrame) dt x :
  sample_at df dt = Some x → (dt, x) ∈ df.
Proof.
  induction df as [|[ts y] df IH]; simpl; [done|].
  destruct (sample_at df dt) as [z|] eqn:Hrest.
  - intros [= ->]. right. by apply IH.
  - destruct (Z.eqb_spec ts dt) as [->|]; [|done].
    intros [= ->]. left.
Qed.

Lemma sample_at_None (df : DataFrame) dt :
  sample_at df dt = None ↔ ∀ x, (dt, x) ∉ df.
Proof.
  induction df as [|[ts y] df IH]; simpl.
  - split; [|done]. intros _ x Hx. by apply elem_of_nil in Hx.
  - destruct (sample_at df dt) as [z|] eqn:Hrest.
    + split; [done|]. intros Hno. exfalso.
      apply (Hno z). right. by apply sample_at_elem_of.
    + destruct (Z.eqb_spec ts dt) as [->|Hne].
      * split; [done|]. intros Hno. exfalso. apply (Hno y). left.
      * split; [|done]. intros _ x Hx.
        apply elem_of_cons in Hx as [[= ? ?]|Hx]; [done|].
        by apply (proj1 IH eq_refl x).
Qed.

Lemma in_window_spec w dt ts :
  in_window w dt ts = true ↔ (dt - w ≤ ts ≤ dt)%Z.
Proof. unfold in_window. rewrite andb_true_iff, !Z.leb_le. done. Qed.

Lemma elem_of_window_samples w dt (df : DataFrame) s :
  s ∈ window_samples w dt df ↔ ∃ ts, (ts, s) ∈ df ∧ (dt - w ≤ ts ≤ dt)%Z.
Proof.
  induction df as [|[ts y] df IH]; simpl.
  - split; [by intros ?%elem_of_nil|]. by intros (? & ?%elem_of_nil & _).
  - destruct (in_window w dt ts) eqn:Hin.
    + rewrite elem_of_cons, IH. split.
      * intros [->|(ts' & ? & ?)].
        -- exists ts. split; [left|]. by apply in_window_spec.
        -- exists ts'. split; [by right|done].
      * intros (ts' & [[= -> ->]|?]%elem_of_cons & ?); [by left|].
        right. by exists ts'.
    + rewrite IH. split.
      * intros (ts' & ? & ?). exists ts'. split; [by right|done].
      * intros (ts' & [[= -> ->]|?]%elem_of_cons & Hw); [|by exists ts'].
        apply in_window_spec in Hw. congruence.
Qed.

Lemma elem_of_collect_reference w uid dt i (dffs : list DataFrame) s :
  s ∈ collect_reference w uid dt i dffs ↔
  ∃ j df ts, (i + j)%nat ≠ uid ∧ dffs !! j = Some df ∧
             (ts, s) ∈ df ∧ (dt - w ≤ ts ≤ dt)%Z.
Proof.
  revert i. induction dffs as [|df dffs IH]; intros i; simpl.
  - split; [by intros ?%elem_of_nil|]. by intros (? & ? & ? & _ & ? & _).
  - rewrite elem_of_app, IH. split.
    + intros [Hhere|(j & df' & ts & Hne & Hj & Hin & Hw)].
      * destruct (Nat.eqb_spec i uid) as [|Hne]; [by apply elem_of_nil in Hhere|].
        apply elem_of_window_samples in Hhere as (ts & ? & ?).
        exists 0%nat, df, ts. rewrite Nat.add_0_r. done.
      * exists (S j), df', ts. split; [lia|done].
    + intros (j & df' & ts & Hne & Hj & Hin & Hw). destruct j as [|j].
      * left. simpl in Hj. injection Hj as ->. rewrite Nat.add_0_r in Hne.
        destruct (Nat.eqb_spec i uid); [done|].
        apply elem_of_window_samples. by exists ts.
      * right. exists j, df', ts. split; [lia|done].
Qed.

Lemma target_lookup_None (dffs : list DataFrame) uid dt :
  dffs !! uid ≫= (λ df, sample_at df dt) = None ↔ ¬ has_sample_at dffs uid dt.
Proof.
  unfold has_sample_at. destruct (dffs !! uid) as [df|]; simpl.
  - rewrite sample_at_None. split.
    + intros Hno (df' & x & [= <-] & Hx). by apply (Hno x).
    + intros Hno x Hx. apply Hno. by exists df, x.
  - split; [|done]. by intros _ (? & ? & ? & _).
Qed.

(** C9. [get_target_and_reference] raises [TestUnitError] exactly when
    the target has no sample at [dt]; otherwise it raises
    [NoRefGroupError] exactly when no other unit has a sample stamped in
    the closed window [[dt - w_ref_group, dt]]; otherwise it returns a
    sample the target has at [dt] together with a reference set whose
    members are exactly the samples of the other units stamped in that
    window. *)
Theorem get_target_and_reference_spec (self : PeerGrouping.t) (uid : nat)
    (dt : Time) (dffs : list DataFrame) :
  match get_target_and_reference self uid dt dffs with
  | Raised e =>
      (e = TestUnitError ∧ ¬ has_sample_at dffs uid dt) ∨
      (e = NoRefGroupError ∧ has_sample_at dffs uid dt ∧
       ∀ s, ¬ peer_sample (w_ref_group self) dffs uid dt s)
  | Returned (x, Xref) =>
      (∃ df, dffs !! uid = Some df ∧ (dt, x) ∈ df) ∧
      Xref ≠ [] ∧
      ∀ s, s ∈ Xref ↔ peer_sample (w_ref_group self) dffs uid dt s
  end.
Proof.
  unfold get_target_and_reference.
  destruct (dffs !! uid ≫= _) as [x|] eqn:Htarget.
  - assert (Hx : ∃ df, dffs !! uid = Some df ∧ (dt, x) ∈ df).
    { destruct (dffs !! uid) as [df|]; [|done]. simpl in Htarget.
      exists df. split; [done|]. by apply sample_at_elem_of. }
    assert (Hmem : ∀ s, s ∈ collect_reference (w_ref_group self) uid dt 0 dffs
                        ↔ peer_sample (w_ref_group self) dffs uid dt s).
    { intros s. rewrite elem_of_collect_reference. done. }
    destruct (collect_reference _ _ _ _ _) as [|r Xref] eqn:Href.
    + right. split; [done|]. split.
      * destruct Hx as (df & ? & ?). by exists df, x.
      * intros s Hs. apply Hmem in Hs. by apply elem_of_nil in Hs.
    + done.
  - left. split; [done|]. by apply target_lookup_None.
Qed.

(** The only exceptions of [get_target_and_reference]. *)
Lemma get_target_and_reference_raises self uid dt (dffs : list DataFrame) e :
  get_target_and_reference self uid dt dffs = Raised e →
  e = TestUnitError ∨ e = NoRefGroupError.
Proof.
  unfold get_target_and_reference.
  destruct (dffs !! uid ≫= _); [|intros [= <-]; by left].
  destruct (collect_reference _ _ _ _ _); [|done].
  intros [= <-]. by right.
Qed.

Lemma get_target_and_reference_nonempty self uid dt (dffs : list DataFrame) x Xref :
  get_target_and_reference self uid dt dffs = Returned (x, Xref) → Xref ≠ [].
Proof.
  unfold get_target_and_reference.
  destruct (dffs !! uid ≫= _); [|done].
  destruct (collect_reference _ _ _ _ _); [done|].
  by intros [= _ <-].
Qed.

End PeerGroupingFacts.

(** ** The detector *)

Section DetectorFacts.
Context `{E : Engines}.
Import IndividualAnomalyInductive.

Lemma scorer_fit_raises nc kk X e :
  StrangenessScorer.fit nc kk X = Raised e → e = InsufficientReferenceError.
Proof.
  unfold StrangenessScorer.fit. intros H.
  repeat case_match; by simplify_eq.
Qed.

Lemma scorer_fit_returns nc kk X :
  X ≠ [] → (nc = knn → kk ≠ 0%Z) →
  StrangenessScorer.fit nc kk X = Returned (fit_policy nc kk X).
Proof.
  intros HX Hk. unfold StrangenessScorer.fit.
  destruct X; [done|]. destruct nc; try done.
  destruct (Z.eqb_spec kk 0); [by destruct Hk|done].
Qed.

Lemma fit_raises d X e : fit d X = Raised e → e = InsufficientReferenceError.
Proof.
  unfold fit. destruct (StrangenessScorer.fit _ _ _) eqn:Hfit; [done|].
  intros [= <-]. by eapply scorer_fit_raises.
Qed.

Lemma fit_returned d X d' :
  fit d X = Returned d' →
  same_config d d' ∧ is_Some (model d') ∧
  seq_T d' = seq_T d ∧ seq_S d' = seq_S d ∧ seq_P d' = seq_P d ∧ seq_M d' = seq_M d.
Proof.
  unfold fit. destruct (StrangenessScorer.fit _ _ _); [|done].
  intros [= <-]. by repeat split.
Qed.

Lemma fit_returns d X :
  X ≠ [] → (non_conformity d = knn → k d ≠ 0%Z) →
  ∃ d', fit d X = Returned d'.
Proof.
  intros HX Hk. unfold fit. rewrite scorer_fit_returns by done. eauto.
Qed.

Lemma predict_raises d g dt x e :
  predict d g dt x = Raised e → e = InsufficientReferenceError.
Proof.
  unfold predict, StrangenessScorer.score.
  destruct (model d); [|by intros [= <-]].
  destruct (uniform g), (martingale_update _ _ _). done.
Qed.

Lemma predict_returns d g dt x :
  is_Some (model d) → ∃ r, predict d g dt x = Returned r.
Proof.
  intros [m Hm]. unfold predict, StrangenessScorer.score. rewrite Hm.
  destruct (uniform g), (martingale_update _ _ _). eauto.
Qed.

(** What a successful [predict] hands back: the four values of steps 1
    to 4, and a detector whose sequences grew by exactly these. *)
Lemma predict_returned d g dt x d' g' c :
  predict d g dt x = Returned (d', g', c) →
  same_config d d' ∧ model d' = model d ∧
  pvalue c = conformal_pvalue (uniform g).1 (seq_S d) (strangeness c) ∧
  deviation c = (martingale_update (w_martingale d) (mart d) (pvalue c)).2 ∧
  is_deviating c = Qle_bool (dev_threshold d) (deviation c) ∧
  seq_T d' = seq_T d ++ [dt] ∧ seq_S d' = seq_S d ++ [strangeness c] ∧
  seq_P d' = seq_P d ++ [pvalue c] ∧ seq_M d' = seq_M d ++ [deviation c].
Proof.
  unfold predict, StrangenessScorer.score.
  destruct (model d); [|done].
  destruct (uniform g) as [theta g1] eqn:Hu.
  destruct (martingale_update _ _ _) as [m1 dev] eqn:Hm.
  intros [= <- <- <-]. simpl. rewrite Hm. by repeat split.
Qed.





End DetectorFacts.

(** ** Ingesting one step *)

Section IngestFacts.
Context `{E : Engines}.
Import GroupAnomaly.

Lemma append_all_raises (frames : list DataFrame) dt i xs e :
  append_all frames dt i xs = Raised e → e = IndexError.
Proof.
  revert i. induction xs as [|x xs IH]; intros i; simpl; [done|].
  destruct (frames !! i); [|by intros [= <-]].
  destruct (append_all frames dt (S i) xs) eqn:Hrest; [done|].
  intros [= <-]. by eapply IH.
Qed.

Lemma append_all_returned (frames : list DataFrame) dt i xs r :
  append_all frames dt i xs = Returned r →
  length r = length xs ∧
  ∀ j x, xs !! j = Some x →
    ∃ df, frames !! (i + j)%nat = Some df ∧ r !! j = Some (df ++ [(dt, x)]).
Proof.
  revert i r. induction xs as [|x xs IH]; intros i r; simpl.
  - intros [= <-]. split; [done|]. intros j y Hj. by destruct j.
  - destruct (frames !! i) as [df|] eqn:Hdf; [|done].
    destruct (append_all frames dt (S i) xs) as [rest|] eqn:Hrest; [|done].
    intros [= <-]. destruct (IH _ _ Hrest) as [Hlen Hlook].
    split; [simpl; by rewrite Hlen|].
    intros [|j] y Hj; simpl in *.
    + injection Hj as <-. exists df. by rewrite Nat.add_0_r.
    + destruct (Hlook j y Hj) as (df' & Hdf' & Hr).
      exists df'. split; [|done]. by replace (i + S j)%nat with (S i + j)%nat by lia.
Qed.

Lemma append_all_returns (frames : list DataFrame) dt i xs :
  (i + length xs ≤ length frames)%nat →
  ∃ r, append_all frames dt i xs = Returned r.
Proof.
  revert i. induction xs as [|x xs IH]; intros i Hlen; simpl in *; [eauto|].
  destruct (lookup_lt_is_Some_2 frames i) as [df ->]; [lia|].
  destruct (IH (S i)) as [rest ->]; [lia|]. eauto.
Qed.

Lemma transform_all_length xs trs :
  length (transform_all xs trs).1 = length trs ∧
  length (transform_all xs trs).2 = (length xs `min` length trs)%nat.
Proof.
  revert trs. induction xs as [|x xs IH]; intros trs; simpl.
  - done.
  - destruct trs as [|tr trs]; simpl; [done|].
    destruct (transform tr x) as [tr' y].
    specialize (IH trs). destruct (transform_all xs trs) as [trs' ys].
    simpl in *. lia.
Qed.

Lemma transform_all_lookup xs trs j x tr :
  xs !! j = Some x → trs !! j = Some tr →
  (transform_all xs trs).1 !! j = Some (transform tr x).1 ∧
  (transform_all xs trs).2 !! j = Some (transform tr x).2.
Proof.
  revert trs j. induction xs as [|x0 xs IH]; intros trs j; [done|].
  destruct trs as [|tr0 trs]; [done|]. simpl.
  destruct (transform tr0 x0) as [tr0' y0] eqn:H0.
  specialize (IH trs). destruct (transform_all xs trs) as [trs' ys].
  destruct j as [|j]; simpl.
  - intros [= ->] [= ->]. by rewrite H0.
  - intros Hx Htr. by apply IH.
Qed.

(** [ingest] touches neither the configuration nor the detectors nor the
    generator. *)
Lemma ingest_frame self dt x_units :
  let self' := (ingest self dt x_units).1 in
  nb_units self' = nb_units self ∧
  ids_target_units self' = ids_target_units self ∧
  pg self' = pg self ∧
  dev_threshold self' = dev_threshold self ∧
  detectors self' = detectors self ∧
  random_state self' = random_state self.
Proof.
  unfold ingest. destruct (append_all (dfs_original self) _ _ _); [|done].
  destruct (transform_all _ _) as [trs ys]. simpl.
  by destruct (append_all (dfs self) _ _ _).
Qed.

(** Given one sample per unit, [ingest] raises nothing and extends each
    unit's raw history by its sample and its transformed history by the
    sample its transformer made of it. *)
Lemma ingest_full self dt x_units :
  well_formed self → length x_units = nb_units self →
  ∃ mid, ingest self dt x_units = (mid, Returned ()) ∧
    well_formed mid ∧
    ∀ i, (i < nb_units self)%nat →
      ∃ raw df x tr,
        dfs_original self !! i = Some raw ∧ dfs self !! i = Some df ∧
        x_units !! i = Some x ∧ transformers self !! i = Some tr ∧
        dfs_original mid !! i = Some (raw ++ [(dt, x)]) ∧
        dfs mid !! i = Some (df ++ [(dt, (transform tr x).2)]) ∧
        transformers mid !! i = Some (transform tr x).1.
Proof.
  intros (Hraw & Hdf & Hdet & Htr) Hx. unfold ingest.
  destruct (append_all_returns (dfs_original self) dt 0 x_units) as [raws Hraws];
    [simpl; lia|].
  rewrite Hraws. simpl.
  pose proof (transform_all_length x_units (transformers self)) as [Hl1 Hl2].
  pose proof (transform_all_lookup x_units (transformers self)) as Hlook.
  destruct (transform_all x_units (transformers self)) as [trs ys]. simpl in *.
  destruct (append_all_returns (dfs self) dt 0 ys) as [dfs' Hdfs'];
    [simpl; lia|].
  rewrite Hdfs'. eexists. split; [done|].
  apply append_all_returned in Hraws as [Hlr Hr].
  apply append_all_returned in Hdfs' as [Hld Hd].
  split; [unfold well_formed; simpl; lia|].
  intros i Hi. simpl.
  destruct (lookup_lt_is_Some_2 x_units i) as [x Hxi]; [lia|].
  destruct (lookup_lt_is_Some_2 (transformers self) i) as [tr Htri]; [lia|].
  destruct (Hlook i x tr Hxi Htri) as [Ht1 Ht2].
  destruct (Hr i x Hxi) as (raw & Hraw1 & Hraw2).
  destruct (Hd i _ Ht2) as (df & Hdf1 & Hdf2).
  exists raw, df, x, tr. done.
Qed.

End IngestFacts.

(** ** The loop over the target units *)

Section LoopFacts.
Context `{E : Engines}.
Import GroupAnomaly.

Lemma same_config_refl d : same_config d d.
Proof. by repeat split. Qed.

Lemma same_config_trans d1 d2 d3 :
  same_config d1 d2 → same_config d2 d3 → same_config d1 d3.
Proof. unfold same_config. intros (?&?&?&?) (?&?&?&?). repeat split; congruence. Qed.

Lemma same_config_all_refl ds : Forall2 same_config ds ds.
Proof. apply Forall2_same_length_lookup_2; [done|]. intros i d d' ? ?. simplify_eq. apply same_config_refl. Qed.

Lemma same_config_all_trans ds1 ds2 ds3 :
  Forall2 same_config ds1 ds2 → Forall2 same_config ds2 ds3 →
  Forall2 same_config ds1 ds3.
Proof.
  intros H12. revert ds3. induction H12; intros ds3 H23; inversion H23; subst;
    constructor; eauto using same_config_trans.
Qed.

Lemma same_config_insert ds uid d d' :
  ds !! uid = Some d → same_config d d' →
  Forall2 same_config ds (<[uid := d']> ds).
Proof.
  intros Hd Hcfg. apply Forall2_same_length_lookup_2; [by rewrite length_insert|].
  intros i a b Ha Hb. destruct (decide (i = uid)) as [->|Hne].
  - rewrite list_lookup_insert_eq in Hb by (by eapply lookup_lt_Some).
    by simplify_eq.
  - rewrite list_lookup_insert_ne in Hb by done. simplify_eq. apply same_config_refl.
Qed.

Lemma loop_step_refl s : loop_step s s.
Proof. repeat split. apply same_config_all_refl. Qed.

Lemma loop_step_trans s1 s2 s3 :
  loop_step s1 s2 → loop_step s2 s3 → loop_step s1 s3.
Proof.
  unfold loop_step. intros (?&?&?&?&?&?&?&?) (?&?&?&?&?&?&?&?).
  repeat split; try congruence. by eapply same_config_all_trans.
Qed.

(** One turn of the loop, case by case. *)
Lemma diagnose_inv self dt uid self' out :
  diagnose self dt uid = (self', out) →
  loop_step self self' ∧
  (∀ i, i ≠ uid → detectors self' !! i = detectors self !! i) ∧
  match out with
  | Raised e =>
      (e = IndexError ∧ detectors self !! uid = None) ∨
      e = InsufficientReferenceError
  | Returned c =>
      (c = default_context ∧ self' = self ∧
       ∃ e, PeerGrouping.get_target_and_reference (pg self) uid dt (dfs self)
            = Raised e) ∨
      (∃ x Xref d fitted d' g',
         PeerGrouping.get_target_and_reference (pg self) uid dt (dfs self)
           = Returned (x, Xref) ∧
         detectors self !! uid = Some d ∧
         IndividualAnomalyInductive.fit d Xref = Returned fitted ∧
         IndividualAnomalyInductive.predict fitted (random_state self) dt x
           = Returned (d', g', c) ∧
         detectors self' = <[uid := d']> (detectors self) ∧
         random_state self' = g')
  end.
Proof.
  unfold diagnose. destruct (detectors self !! uid) as [d|] eqn:Hd.
  2:{ intros [= <- <-]. split; [apply loop_step_refl|]. split; [done|]. by left. }
  destruct (PeerGrouping.get_target_and_reference _ _ _ _)
    as [[x Xref]|e] eqn:Hpg.
  2:{ apply get_target_and_reference_raises in Hpg as Hcases.
      assert (except_clause e = Returned default_context) as ->
        by (by destruct Hcases as [-> | ->]).
      intros [= <- <-]. split; [apply loop_step_refl|]. split; [done|].
      left. eauto. }
  destruct (IndividualAnomalyInductive.fit d Xref) as [fitted|e] eqn:Hfit.
  2:{ apply fit_raises in Hfit as ->. simpl. intros [= <- <-].
      split; [apply loop_step_refl|]. split; [done|]. by right. }
  apply fit_returned in Hfit as Hfitted. destruct Hfitted as (Hcfg & _).
  simpl.
  destruct (IndividualAnomalyInductive.predict fitted _ dt x)
    as [[[d' g'] c]|e] eqn:Hpred.
  - intros [= <- <-]. simpl.
    apply predict_returned in Hpred as Hpredicted.
    destruct Hpredicted as (Hcfg' & _).
    split; [|split].
    + repeat split; simpl. rewrite list_insert_insert_eq.
      eapply same_config_insert; [done|]. by eapply same_config_trans.
    + intros i Hi. simpl. by rewrite !list_lookup_insert_ne.
    + right. exists x, Xref, d, fitted, d', g'.
      by rewrite list_insert_insert_eq.
  - apply predict_raises in Hpred as ->. simpl. intros [= <- <-]. simpl.
    split; [|split].
    + repeat split; simpl. by eapply same_config_insert.
    + intros i Hi. by rewrite list_lookup_insert_ne.
    + by right.
Qed.

(** When grouping raises, the turn leaves the object alone and yields
    the default context. *)
Lemma diagnose_grouping_raises self dt uid e :
  is_Some (detectors self !! uid) →
  PeerGrouping.get_target_and_reference (pg self) uid dt (dfs self) = Raised e →
  diagnose self dt uid = (self, Returned default_context).
Proof.
  intros [d Hd] Hpg. unfold diagnose. rewrite Hd, Hpg.
  by destruct (get_target_and_reference_raises _ _ _ _ _ Hpg) as [-> | ->].
Qed.

(** When the scorer refuses the reference group, the turn raises. *)
Lemma diagnose_scorer_raises self dt uid d x Xref :
  detectors self !! uid = Some d →
  PeerGrouping.get_target_and_reference (pg self) uid dt (dfs self)
    = Returned (x, Xref) →
  StrangenessScorer.fit (IndividualAnomalyInductive.non_conformity d)
    (IndividualAnomalyInductive.k d) Xref = Raised InsufficientReferenceError →
  diagnose self dt uid = (self, Raised InsufficientReferenceError).
Proof.
  intros Hd Hpg Hfit. unfold diagnose, IndividualAnomalyInductive.fit.
  by rewrite Hd, Hpg, Hfit.
Qed.

(** A turn returns as soon as the detector exists and its [k] is usable. *)
Lemma diagnose_returns self dt uid d :
  detectors self !! uid = Some d →
  (IndividualAnomalyInductive.non_conformity d = knn →
   IndividualAnomalyInductive.k d ≠ 0%Z) →
  ∃ self' c, diagnose self dt uid = (self', Returned c).
Proof.
  intros Hd Hk. unfold diagnose. rewrite Hd.
  destruct (PeerGrouping.get_target_and_reference _ _ _ _)
    as [[x Xref]|e] eqn:Hpg.
  - apply get_target_and_reference_nonempty in Hpg as Hne.
    destruct (fit_returns d Xref Hne Hk) as [fitted Hfit]. rewrite Hfit.
    apply fit_returned in Hfit as (_ & Hmodel & _). simpl.
    destruct (predict_returns fitted (random_state self) dt x Hmodel)
      as [[[d' g'] c] ->]. eauto.
  - destruct (get_target_and_reference_raises _ _ _ _ _ Hpg) as [-> | ->];
      simpl; eauto.
Qed.

Lemma predict_loop_app self dt ids1 ids2 acc :
  predict_loop self dt (ids1 ++ ids2) acc =
  match predict_loop self dt ids1 acc with
  | (s1, Returned devs1) => predict_loop s1 dt ids2 devs1
  | (s1, Raised e) => (s1, Raised e)
  end.
Proof.
  revert self acc. induction ids1 as [|uid ids1 IH]; intros self acc; simpl; [done|].
  destruct (diagnose self dt uid) as [s [c|e]]; [apply IH|done].
Qed.

(** The contexts already collected stay in front of the new ones. *)
Lemma predict_loop_acc self dt ids acc :
  predict_loop self dt ids acc =
  match predict_loop self dt ids [] with
  | (s, Returned new) => (s, Returned (acc ++ new))
  | (s, Raised e) => (s, Raised e)
  end.
Proof.
  revert self acc. induction ids as [|uid ids IH]; intros self acc; simpl.
  - by rewrite app_nil_r.
  - destruct (diagnose self dt uid) as [s [c|e]]; [|done].
    rewrite (IH s (acc ++ [c])), (IH s [c]).
    destruct (predict_loop s dt ids []) as [s' [new|e]]; [|done].
    by rewrite <- app_assoc.
Qed.

(** Each turn adds one context. *)
Lemma predict_loop_length self dt ids self' devs :
  predict_loop self dt ids [] = (self', Returned devs) →
  length devs = length ids.
Proof.
  revert self self' devs.
  induction ids as [|uid ids IH]; intros self self' devs; simpl.
  - by intros [= _ <-].
  - destruct (diagnose self dt uid) as [s [c|e]]; [|done].
    rewrite predict_loop_acc.
    destruct (predict_loop s dt ids []) as [s' [new|e]] eqn:Hrest; [|done].
    intros [= _ <-]. simpl. f_equal. by eapply IH.
Qed.

(** The context at position [n] is the one the turn for the [n]-th
    target produced, in the state the turns before it left. *)
Lemma predict_loop_lookup self dt ids self' devs n uid :
  predict_loop self dt ids [] = (self', Returned devs) →
  ids !! n = Some uid →
  ∃ s_n devs_n s_n' c,
    predict_loop self dt (take n ids) [] = (s_n, Returned devs_n) ∧
    diagnose s_n dt uid = (s_n', Returned c) ∧
    devs !! n = Some c.
Proof.
  intros Hloop Hn.
  rewrite <- (take_drop_middle ids n uid Hn) in Hloop.
  rewrite predict_loop_app in Hloop.
  destruct (predict_loop self dt (take n ids) []) as [s_n [devs_n|e]] eqn:Hpre;
    [|done].
  apply predict_loop_length in Hpre as Hlen.
  rewrite length_take_le in Hlen by (apply lookup_lt_Some in Hn; lia).
  simpl in Hloop.
  destruct (diagnose s_n dt uid) as [s_n' [c|e]] eqn:Hturn; [|done].
  rewrite predict_loop_acc in Hloop.
  destruct (predict_loop s_n' dt (drop (S n) ids) []) as [s'' [rest|e]]; [|done].
  injection Hloop as _ <-.
  exists s_n, devs_n, s_n', c. split; [done|]. split; [done|].
  rewrite <- app_assoc. rewrite lookup_app_r by lia.
  by rewrite Hlen, Nat.sub_diag.
Qed.

(** An invariant of the turns carries over the loop, and so does a
    property of the contexts the turns return. *)
Lemma predict_loop_ind (I : t → Prop) (Φ : DeviationContext → Prop)
    self dt ids self' out :
  (∀ s uid s' o, I s → diagnose s dt uid = (s', o) →
     I s' ∧ ∀ c, o = Returned c → Φ c) →
  I self →
  predict_loop self dt ids [] = (self', out) →
  I self' ∧ ∀ devs, out = Returned devs → Forall Φ devs.
Proof.
  intros Hturn. revert self self' out.
  induction ids as [|uid ids IH]; intros self self' out HI; simpl.
  - intros [= <- <-]. split; [done|]. by intros devs [= <-].
  - destruct (diagnose self dt uid) as [s o] eqn:Hd.
    destruct (Hturn _ _ _ _ HI Hd) as [HI' HΦ].
    destruct o as [c|e]; [|intros [= <- <-]; by split].
    rewrite predict_loop_acc.
    destruct (predict_loop s dt ids []) as [s'' o'] eqn:Hrest.
    destruct (IH _ _ _ HI' Hrest) as [HI'' Hall].
    destruct o' as [new|e]; intros [= <- <-]; (split; [done|]); [|done].
    intros devs [= <-]. constructor; [by apply HΦ|by apply Hall].
Qed.

(** The loop changes only the detectors of the units it is given. *)
Lemma predict_loop_frame self dt ids acc self' out :
  predict_loop self dt ids acc = (self', out) →
  loop_step self self' ∧
  ∀ i, i ∉ ids → detectors self' !! i = detectors self !! i.
Proof.
  revert self acc. induction ids as [|uid ids IH]; intros self acc; simpl.
  - intros [= <- <-]. split; [apply loop_step_refl|done].
  - destruct (diagnose self dt uid) as [s o] eqn:Hd.
    apply diagnose_inv in Hd as (Hstep & Hother & _).
    destruct o as [c|e].
    + intros Hrest. destruct (IH _ _ Hrest) as [Hstep' Hother'].
      split; [by eapply loop_step_trans|].
      intros i Hi. apply not_elem_of_cons in Hi as [? ?].
      rewrite Hother' by done. by apply Hother.
    + intros [= <- <-]. split; [done|].
      intros i Hi. apply not_elem_of_cons in Hi as [? ?]. by apply Hother.
Qed.

(** The loop returns when every target has a detector with a usable [k]. *)
Lemma predict_loop_returns self dt ids :
  Forall (λ uid, ∃ d, detectors self !! uid = Some d ∧
            (IndividualAnomalyInductive.non_conformity d = knn →
             IndividualAnomalyInductive.k d ≠ 0%Z)) ids →
  ∃ self' devs, predict_loop self dt ids [] = (self', Returned devs).
Proof.
  revert self. induction ids as [|uid ids IH]; intros self Hall; simpl; [eauto|].
  apply Forall_cons in Hall as [(d & Hd & Hk) Hall].
  destruct (diagnose_returns self dt uid d Hd Hk) as (s & c & Hturn).
  rewrite Hturn. rewrite predict_loop_acc.
  apply diagnose_inv in Hturn as ((_&_&_&_&_&_&_& Hcfg) & _ & _).
  destruct (IH s) as (s' & devs & ->); [|eauto].
  eapply Forall_impl; [exact Hall|]. simpl.
  intros u (d0 & Hd0 & Hk0).
  destruct (Forall2_lookup_l _ _ _ _ _ Hcfg Hd0) as (d1 & Hd1 & (_ & Hnc & Hkk & _)).
  exists d1. split; [done|]. by rewrite Hnc, Hkk.
Qed.

End LoopFacts.

(** ** A whole call *)

Section PredictFacts.
Context `{E : Engines}.
Import GroupAnomaly.

Lemma ingest_raises self dt x_units self' e :
  ingest self dt x_units = (self', Raised e) → e = IndexError.
Proof.
  unfold ingest.
  destruct (append_all (dfs_original self) _ _ _) eqn:H1.
  - destruct (transform_all _ _) as [trs ys]. simpl.
    destruct (append_all (dfs self) _ _ _) eqn:H2; [done|].
    intros [= _ <-]. by eapply append_all_raises.
  - intros [= _ <-]. by eapply append_all_raises.
Qed.

(** [predict] is [ingest] followed by the loop over the targets. *)
Lemma predict_after_ingest self dt x_units mid :
  ingest self dt x_units = (mid, Returned ()) →
  predict self dt x_units = predict_loop mid dt (ids_target_units mid) [].
Proof. intros H. unfold predict. by rewrite H. Qed.

Lemma predict_returned_ingest self dt x_units devs :
  (predict self dt x_units).2 = Returned devs →
  ingest self dt x_units = ((ingest self dt x_units).1, Returned ()).
Proof.
  unfold predict. destruct (ingest self dt x_units) as [mid [[]|e]]; done.
Qed.

Lemma evolves_refl s : evolves s s.
Proof. repeat split. apply same_config_all_refl. Qed.

Lemma evolves_trans s1 s2 s3 : evolves s1 s2 → evolves s2 s3 → evolves s1 s3.
Proof.
  unfold evolves. intros (?&?&?&?&?) (?&?&?&?&?).
  repeat split; try congruence. by eapply same_config_all_trans.
Qed.

Lemma predict_evolves self dt x_units :
  evolves self (predict self dt x_units).1.
Proof.
  unfold predict.
  pose proof (ingest_frame self dt x_units) as (Hn & Hids & Hpg & Hth & Hdet & _).
  destruct (ingest self dt x_units) as [mid [[]|e]] eqn:Hing; simpl in *.
  - destruct (predict_loop mid dt _ []) as [s' out] eqn:Hloop.
    apply predict_loop_frame in Hloop as [(?&?&?&?&_&_&_&Hcfg) _].
    unfold evolves. simpl. rewrite <- Hdet. repeat split; congruence.
  - unfold evolves. simpl. rewrite <- Hdet.
    repeat split; try done. apply same_config_all_refl.
Qed.

(** Any call leaves the detectors of the units that are no targets as
    they were. *)
Lemma predict_other_detectors self dt x_units i :
  i ∉ ids_target_units self →
  detectors (predict self dt x_units).1 !! i = detectors self !! i.
Proof.
  intros Hnot. unfold predict.
  pose proof (ingest_frame self dt x_units) as (_ & Hids & _ & _ & Hdet & _).
  destruct (ingest self dt x_units) as [mid [[]|e]] eqn:Hing; simpl in *.
  - destruct (predict_loop mid dt _ []) as [s' out] eqn:Hloop.
    apply predict_loop_frame in Hloop as [_ Hother]. simpl.
    rewrite Hother by (by rewrite Hids). by rewrite Hdet.
  - by rewrite Hdet.
Qed.

Lemma reachable_evolves s0 self : reachable s0 self → evolves s0 self.
Proof.
  induction 1 as [|self dt x_units _ IH]; [apply evolves_refl|].
  eapply evolves_trans; [exact IH|apply predict_evolves].
Qed.

Lemma reachable_full_reachable s0 self : reachable_full s0 self → reachable s0 self.
Proof. induction 1; by constructor. Qed.

(** A call given one sample per unit, on a well-formed object: however
    it ends, every unit's two histories got their new entry, and the
    detectors of the units that are no targets are as before. *)
Lemma predict_full self dt x_units :
  well_formed self → length x_units = nb_units self →
  let self' := (predict self dt x_units).1 in
  well_formed self' ∧
  (∀ i, i ∉ ids_target_units self → detectors self' !! i = detectors self !! i) ∧
  ∀ i, (i < nb_units self)%nat →
    ∃ raw df x tr,
      dfs_original self !! i = Some raw ∧ dfs self !! i = Some df ∧
      x_units !! i = Some x ∧ transformers self !! i = Some tr ∧
      dfs_original self' !! i = Some (raw ++ [(dt, x)]) ∧
      dfs self' !! i = Some (df ++ [(dt, (transform tr x).2)]).
Proof.
  intros Hwf Hlen.
  destruct (ingest_full self dt x_units Hwf Hlen) as (mid & Hing & Hwf' & Hhist).
  pose proof (ingest_frame self dt x_units) as (Hn & Hids & _ & _ & Hdet & _).
  rewrite Hing in Hn, Hids, Hdet. simpl in *.
  rewrite (predict_after_ingest _ _ _ _ Hing).
  destruct (predict_loop mid dt _ []) as [s' out] eqn:Hloop.
  apply predict_loop_frame in Hloop
    as [(Hn' & _ & _ & _ & Hraw & Hdf & Htr & Hcfg) Hother]. simpl.
  split; [|split].
  - destruct Hwf' as (?&?&?&?). apply Forall2_length in Hcfg.
    unfold well_formed. rewrite Hn', Hraw, Hdf, Htr, <- Hcfg. done.
  - intros i Hi. rewrite Hother by (by rewrite Hids). by rewrite Hdet.
  - intros i Hi. destruct (Hhist i Hi) as (raw & df & x & tr & ? & ? & ? & ? & ? & ? & _).
    exists raw, df, x, tr. rewrite Hraw, Hdf. done.
Qed.

Lemma init_well_formed n ids w wm nc kk th tr wt seed :
  well_formed (init n ids w wm nc kk th tr wt seed).
Proof. unfold well_formed. simpl. by rewrite !length_replicate. Qed.

(** What holds of every object that was constructed and then only given
    one sample per unit. *)
Lemma reachable_full_inv s0 self :
  well_formed s0 → histories_aligned s0 →
  reachable_full s0 self →
  well_formed self ∧ histories_aligned self ∧ evolves s0 self ∧
  ∀ i, i ∉ ids_target_units s0 → detectors self !! i = detectors s0 !! i.
Proof.
  intros Hwf0 Hal0. induction 1 as [|self dt x_units Hreach IH Hlen].
  - split; [done|]. split; [done|]. split; [apply evolves_refl|done].
  - destruct IH as (Hwf & Hal & Hev & Hdet).
    pose proof Hev as (Hn & Hids & _).
    destruct (predict_full self dt x_units Hwf) as (Hwf' & Hother & Hhist);
      [congruence|].
    split; [done|]. split; [|split].
    + intros i raw' df' Hraw' Hdf'.
      assert (i < nb_units self)%nat as Hi.
      { destruct Hwf' as (Hl & _). apply lookup_lt_Some in Hraw'.
        pose proof (predict_evolves self dt x_units) as (Hn' & _).
        lia. }
      destruct (Hhist i Hi) as (raw & df & x & tr & Hr & Hd & _ & _ & Hr' & Hd').
      simplify_eq. rewrite !length_app. simpl. by rewrite (Hal i raw df).
    + eapply evolves_trans; [exact Hev|apply predict_evolves].
    + intros i Hi. rewrite Hother by (by rewrite Hids). by apply Hdet.
Qed.

Lemma init_histories_aligned n ids w wm nc kk th tr wt seed :
  histories_aligned (init n ids w wm nc kk th tr wt seed).
Proof.
  intros i raw df. simpl. intros [-> _]%lookup_replicate [-> _]%lookup_replicate.
  done.
Qed.

End PredictFacts.

(** ** The claims about [predict] *)

Section Claims.
Context `{E : Engines}.
Import GroupAnomaly.

Lemma predict_loop_raises self dt ids acc self' e :
  predict_loop self dt ids acc = (self', Raised e) →
  e = IndexError ∨ e = InsufficientReferenceError.
Proof.
  revert self acc. induction ids as [|uid ids IH]; intros self acc; simpl; [done|].
  destruct (diagnose self dt uid) as [s [c|e']] eqn:Hturn; [by apply IH|].
  intros [= _ <-]. apply diagnose_inv in Hturn as (_ & _ & [[? _]|?]); auto.
Qed.

Lemma predict_raises_only self dt x_units e :
  (predict self dt x_units).2 = Raised e →
  e = IndexError ∨ e = InsufficientReferenceError.
Proof.
  unfold predict. destruct (ingest self dt x_units) as [mid [[]|e']] eqn:Hing.
  - destruct (predict_loop mid dt _ []) as [s' [devs|e'']] eqn:Hloop; [done|].
    simpl. intros [= <-]. by eapply predict_loop_raises.
  - simpl. intros [= <-]. left. by eapply ingest_raises.
Qed.

(** C1. Whenever grouping raises for a target unit (it can only raise
    [TestUnitError] or [NoRefGroupError]), the turn for that unit leaves
    the object as it is and yields the neutral default; [predict] never
    ends by raising either of the two errors; and in the list a call
    returns, the context at the position of such a unit is the neutral
    default [(0, 0.5, 0, False)]. *)
Theorem predict_neutral_default self dt x_units :
  let mid := (ingest self dt x_units).1 in
  let out := (predict self dt x_units).2 in
  out ≠ Raised TestUnitError ∧ out ≠ Raised NoRefGroupError ∧
  (∀ s uid e,
     is_Some (detectors s !! uid) →
     PeerGrouping.get_target_and_reference (pg s) uid dt (dfs s) = Raised e →
     (e = TestUnitError ∨ e = NoRefGroupError) ∧
     diagnose s dt uid = (s, Returned default_context)) ∧
  (∀ devs n uid e,
     out = Returned devs →
     ids_target_units self !! n = Some uid →
     PeerGrouping.get_target_and_reference (pg mid) uid dt (dfs mid) = Raised e →
     devs !! n = Some default_context).
Proof.
  intros mid out. repeat split.
  - intros Hout. by destruct (predict_raises_only _ _ _ _ Hout).
  - intros Hout. by destruct (predict_raises_only _ _ _ _ Hout).
  - by eapply get_target_and_reference_raises.
  - by eapply diagnose_grouping_raises.
  - intros devs n uid e Hout Hn Hpg. subst mid out.
    pose proof (predict_returned_ingest _ _ _ _ Hout) as Hing.
    pose proof (ingest_frame self dt x_units) as (_ & Hids & _).
    rewrite (predict_after_ingest _ _ _ _ Hing) in Hout.
    set (mid := (ingest self dt x_units).1) in *.
    destruct (predict_loop mid dt _ []) as [s' out] eqn:Hloop.
    simpl in Hout. subst out. rewrite <- Hids in Hn.
    destruct (predict_loop_lookup _ _ _ _ _ _ _ Hloop Hn)
      as (s_n & devs_n & s_n' & c & Hpre & Hturn & ->).
    apply predict_loop_frame in Hpre as [(_&_&Hpg'&_&_&Hdfs&_) _].
    apply diagnose_inv in Hturn as (_ & _ & [(-> & _)|Hok]); [done|].
    destruct Hok as (x & Xref & _ & _ & _ & _ & Hpg'' & _).
    rewrite Hpg', Hdfs in Hpg''. congruence.
Qed.

Lemma default_context_unit :
  (0 <= pvalue default_context <= 1)%Q ∧ (0 <= deviation default_context <= 1)%Q.
Proof. by vm_compute. Qed.

(** A property of the contexts the turns return, under an invariant of
    the turns, holds of every context a call returns. *)
Lemma predict_Forall (I : t → Prop) (Φ : DeviationContext → Prop)
    self dt x_units devs :
  (∀ s uid s' o, I s → diagnose s dt uid = (s', o) →
     I s' ∧ ∀ c, o = Returned c → Φ c) →
  I (ingest self dt x_units).1 →
  (predict self dt x_units).2 = Returned devs →
  Forall Φ devs.
Proof.
  intros Hturn HI Hout.
  pose proof (predict_returned_ingest _ _ _ _ Hout) as Hing.
  rewrite (predict_after_ingest _ _ _ _ Hing) in Hout.
  destruct (predict_loop _ dt _ []) as [s' out] eqn:Hloop.
  destruct (predict_loop_ind I Φ _ _ _ _ _ Hturn HI Hloop) as [_ Hall].
  by apply Hall.
Qed.

Section FromInit.
Variables (n : nat) (ids : list nat) (w : Z) (wm : nat)
          (nc : NonConformity) (kk : Z) (th : Q)
          (tr : TransformerKind) (wt : nat) (seed : Rng).

Local Abbreviation s0 := (init n ids w wm nc kk th tr wt seed).

Lemma evolved_detector self i d :
  evolves s0 self → detectors self !! i = Some d →
  same_config (IndividualAnomalyInductive.init wm nc kk th) d.
Proof.
  intros (_ & _ & _ & _ & Hcfg) Hd.
  destruct (Forall2_lookup_r _ _ _ _ _ Hcfg Hd) as (d0 & Hd0 & Hsame).
  simpl in Hd0. by apply lookup_replicate in Hd0 as [-> _].
Qed.

Lemma evolved_detector_lookup self i :
  evolves s0 self → (i < n)%nat →
  ∃ d, detectors self !! i = Some d ∧
       same_config (IndividualAnomalyInductive.init wm nc kk th) d.
Proof.
  intros Hev Hi. pose proof Hev as (_ & _ & _ & _ & Hcfg).
  apply Forall2_length in Hcfg. simpl in Hcfg.
  rewrite length_replicate in Hcfg.
  destruct (lookup_lt_is_Some_2 (detectors self) i) as [d Hd]; [lia|].
  exists d. split; [done|]. by eapply evolved_detector.
Qed.

(** C3, as amended. From construction on, every context a call of
    [predict] returns either is the neutral default or has
    [is_deviating] true exactly when its deviation is at least
    [dev_threshold]; and when [dev_threshold] is positive the
    equivalence holds of every returned context, the default
    included. *)
Theorem is_deviating_threshold self dt x_units devs c :
  reachable s0 self →
  (predict self dt x_units).2 = Returned devs →
  c ∈ devs →
  (c = default_context ∨ (is_deviating c = true ↔ (th <= deviation c)%Q)) ∧
  ((0 < th)%Q → (is_deviating c = true ↔ (th <= deviation c)%Q)).
Proof.
  intros Hreach Hout Hc.
  assert (Hmain : c = default_context ∨
                  (is_deviating c = true ↔ (th <= deviation c)%Q)).
  { revert c Hc. apply Forall_forall.
    eapply (predict_Forall (λ s, evolves s0 s)); [| |exact Hout].
    - intros s uid s' o Hev Hturn.
      apply diagnose_inv in Hturn as ((?&?&?&?&_&_&_&Hcfg) & _ & Hcases).
      split.
      { eapply evolves_trans; [exact Hev|]. by repeat split. }
      intros c -> . destruct Hcases as [(-> & _)|Hok]; [by left|right].
      destruct Hok as (x & Xref & d & fitted & d' & g' & _ & Hd & Hfit & Hpred & _).
      apply fit_returned in Hfit as ((_&_&_&Hth1) & _).
      apply predict_returned in Hpred as (_ & _ & _ & _ & -> & _).
      destruct (evolved_detector _ _ _ Hev Hd) as (_&_&_&Hth0).
      rewrite Hth1, Hth0. simpl. apply Qle_bool_iff.
    - pose proof (ingest_frame self dt x_units) as (?&?&?&?&Hdet&_).
      eapply evolves_trans; [by apply reachable_evolves|].
      repeat split; try done. rewrite Hdet. apply same_config_all_refl. }
  split; [done|]. intros Hth.
  destruct Hmain as [->|]; [|done]. simpl. split; [done|].
  intros Hle. exfalso. change (th <= 0)%Q in Hle. lra.
Qed.

(** C4. The list a call of [predict] returns has one context per
    configured target unit, and the context at position [m] is the one the
    turn for the [m]-th id produced, in the state the turns for the ids
    before it, taken in list order, left behind.  And the call does return
    on an object constructed with target ids below [nb_units] (and a [k]
    that [knn] can use) that is given one sample per unit at every call. *)
Theorem predict_one_context_per_target self dt x_units :
  (∀ self' devs,
     predict self dt x_units = (self', Returned devs) →
     length devs = length (ids_target_units self) ∧
     ∀ m uid, ids_target_units self !! m = Some uid →
       ∃ s_m devs_m s_m' c,
         predict_loop (ingest self dt x_units).1 dt
           (take m (ids_target_units self)) [] = (s_m, Returned devs_m) ∧
         diagnose s_m dt uid = (s_m', Returned c) ∧
         devs !! m = Some c) ∧
  (Forall (λ uid, (uid < n)%nat) ids →
   (nc = knn → kk ≠ 0%Z) →
   reachable_full s0 self →
   length x_units = n →
   ∃ self' devs, predict self dt x_units = (self', Returned devs)).
Proof.
  split.
  - intros self' devs Hret.
    assert (Hout : (predict self dt x_units).2 = Returned devs) by (by rewrite Hret).
    pose proof (predict_returned_ingest _ _ _ _ Hout) as Hing.
    pose proof (ingest_frame self dt x_units) as (_ & Hmids & _).
    rewrite (predict_after_ingest _ _ _ _ Hing), Hmids in Hret.
    split; [by eapply predict_loop_length|].
    intros m uid Hm. by eapply predict_loop_lookup.
  - intros Hids Hk Hreach Hlen.
    destruct (reachable_full_inv s0 self) as (Hwf & _ & Hev & _);
      [apply init_well_formed|apply init_histories_aligned|done|].
    pose proof Hev as (Hn & Hids' & _). simpl in Hn, Hids'.
    destruct (ingest_full self dt x_units Hwf) as (mid & Hing & _); [congruence|].
    pose proof (ingest_frame self dt x_units) as (_ & Hmids & _ & _ & Hdet & _).
    rewrite Hing in Hmids, Hdet. simpl in Hmids, Hdet.
    rewrite (predict_after_ingest _ _ _ _ Hing), Hmids, Hids'.
    apply predict_loop_returns.
    eapply Forall_impl; [exact Hids|]. simpl. intros uid Huid.
    destruct (evolved_detector_lookup self uid Hev Huid)
      as (d & Hd & (_ & Hnc & Hkk & _)).
    exists d. rewrite Hdet. split; [done|]. simpl in Hnc, Hkk.
    by rewrite Hnc, Hkk.
Qed.

(** C7. On an object constructed and then given one sample per unit at
    every call, one more such call appends, for every unit, exactly
    the pair of [dt] and the unit's raw sample to its raw history and
    the pair of [dt] and the transformed sample to its transformed
    history, with every earlier entry kept in place; both histories had
    the same length before and have the same length after. *)
Theorem predict_appends_one_entry self dt x_units i :
  reachable_full s0 self →
  length x_units = n →
  (i < n)%nat →
  let self' := (predict self dt x_units).1 in
  ∃ raw df x trf,
    dfs_original self !! i = Some raw ∧ dfs self !! i = Some df ∧
    x_units !! i = Some x ∧ transformers self !! i = Some trf ∧
    dfs_original self' !! i = Some (raw ++ [(dt, x)]) ∧
    dfs self' !! i = Some (df ++ [(dt, (transform trf x).2)]) ∧
    length raw = length df ∧
    length (df ++ [(dt, (transform trf x).2)]) = length (raw ++ [(dt, x)]).
Proof.
  intros Hreach Hlen Hi self'.
  destruct (reachable_full_inv s0 self) as (Hwf & Hal & (Hn & _) & _);
    [apply init_well_formed|apply init_histories_aligned|done|].
  simpl in Hn.
  destruct (predict_full self dt x_units Hwf) as (_ & _ & Hhist); [congruence|].
  destruct (Hhist i) as (raw & df & x & trf & Hr & Hd & Hx & Ht & Hr' & Hd');
    [lia|].
  exists raw, df, x, trf. repeat split; try done.
  - by eapply Hal.
  - rewrite !length_app. simpl. by rewrite (Hal i raw df).
Qed.

(** C10. A call of [predict], whatever it is given and however it ends,
    leaves the detector of a unit that is no target as it was.  And on an
    object constructed and then given one sample per unit at every call,
    that detector is, before and after one more such call, the detector
    the constructor made: never fitted, its sequences empty; while the
    unit's raw and transformed histories each gain one entry by the call. *)
Theorem non_target_detector_untouched self dt x_units i :
  let self' := (predict self dt x_units).1 in
  let fresh := IndividualAnomalyInductive.init wm nc kk th in
  (i ∉ ids_target_units self → detectors self' !! i = detectors self !! i) ∧
  (reachable_full s0 self →
   length x_units = n →
   (i < n)%nat →
   i ∉ ids →
   detectors self !! i = Some fresh ∧
   detectors self' !! i = Some fresh ∧
   IndividualAnomalyInductive.model fresh = None ∧
   IndividualAnomalyInductive.seq_T fresh = [] ∧
   IndividualAnomalyInductive.seq_S fresh = [] ∧
   IndividualAnomalyInductive.seq_P fresh = [] ∧
   IndividualAnomalyInductive.seq_M fresh = [] ∧
   ∃ raw df x y,
     dfs_original self !! i = Some raw ∧ dfs self !! i = Some df ∧
     dfs_original self' !! i = Some (raw ++ [(dt, x)]) ∧
     dfs self' !! i = Some (df ++ [(dt, y)])).
Proof.
  intros self' fresh. split.
  - intros Hnot. subst self'. by apply predict_other_detectors.
  - intros Hreach Hlen Hi Hnot.
    destruct (reachable_full_inv s0 self) as (Hwf & _ & (Hn & Hids & _) & Hdet);
      [apply init_well_formed|apply init_histories_aligned|done|].
    simpl in Hn, Hids.
    assert (Hfresh : detectors self !! i = Some fresh).
    { rewrite Hdet by done. simpl. by apply lookup_replicate. }
    destruct (predict_full self dt x_units Hwf) as (_ & Hother & Hhist);
      [congruence|].
    split; [done|]. split; [subst self'; rewrite Hother; [done|by rewrite Hids]|].
    repeat (split; [done|]).
    destruct (Hhist i) as (raw & df & x & trf & Hr & Hd & _ & _ & Hr' & Hd');
      [lia|].
    by exists raw, df, x, (transform trf x).2.
Qed.

End FromInit.

(** C5, as amended. When the scorer raises
    [InsufficientReferenceError] on the reference group of a target
    unit, the ids before it having been dealt with, [predict] raises
    [InsufficientReferenceError]: its [except] clause names only
    [TestUnitError] and [NoRefGroupError]. *)
Theorem predict_propagates_insufficient_reference
    self dt x_units mid m uid s_m devs_m d x Xref :
  ingest self dt x_units = (mid, Returned ()) →
  ids_target_units self !! m = Some uid →
  predict_loop mid dt (take m (ids_target_units self)) [] = (s_m, Returned devs_m) →
  detectors s_m !! uid = Some d →
  PeerGrouping.get_target_and_reference (pg s_m) uid dt (dfs s_m) = Returned (x, Xref) →
  StrangenessScorer.fit (IndividualAnomalyInductive.non_conformity d)
    (IndividualAnomalyInductive.k d) Xref = Raised InsufficientReferenceError →
  (predict self dt x_units).2 = Raised InsufficientReferenceError.
Proof.
  intros Hing Hm Hpre Hd Hpg Hfit.
  pose proof (ingest_frame self dt x_units) as (_ & Hids & _).
  rewrite Hing in Hids. simpl in Hids.
  rewrite (predict_after_ingest _ _ _ _ Hing), Hids.
  rewrite <- (take_drop_middle _ m uid Hm), predict_loop_app, Hpre. simpl.
  by rewrite (diagnose_scorer_raises _ _ _ _ _ _ Hd Hpg Hfit).
Qed.

End Claims.

(** ** The claims on concrete fleets *)

Section Concrete.
Import GroupAnomaly SimpleEngines.

(** The sample streams of the examples. *)
Local Abbreviation step_one := [[1%Q]].
Local Abbreviation step_two := [[1%Q]; [3%Q]].
Local Abbreviation step_three := [[1%Q]; [3%Q]; [4%Q]].

(** A unit alone in its fleet: grouping raises [NoRefGroupError], the call
    returns the default. *)
Lemma predict_neutral_default_witness :
  let mid := (ingest lone_unit 0 step_one).1 in
  PeerGrouping.get_target_and_reference (pg mid) 0 0 (dfs mid)
    = Raised NoRefGroupError ∧
  (predict lone_unit 0 step_one).2 = Returned [default_context] ∧
  [default_context] !! 0%nat = Some default_context.
Proof.
  pose proof (predict_neutral_default lone_unit 0 step_one) as (_ & _ & _ & H).
  split; [by vm_compute|]. split; [by vm_compute|].
  apply (H [default_context] 0%nat 0%nat NoRefGroupError); by vm_compute.
Defined.

(** C3 fails as stated: a unit alone in its fleet has no peers, so its
    context is the neutral default, whose deviation [0] reaches a threshold
    of [0] while [is_deviating] is [False]. *)
Lemma default_context_at_zero_threshold :
  ∃ c, (predict lone_unit 0 step_one).2 = Returned [c] ∧
       ¬ (is_deviating c = true ↔ (dev_threshold lone_unit <= deviation c)%Q).
Proof.
  exists default_context. split; [by vm_compute|].
  intros [_ H]. discriminate H. by vm_compute.
Qed.

(** The same step under the threshold [0.6]. *)
Lemma is_deviating_threshold_witness :
  let c := mkDeviationContext 2 1 0 false in
  (predict two_units 0 step_two).2 = Returned [c] ∧ (0 < 0.6)%Q ∧
  (is_deviating c = true ↔ (0.6 <= deviation c)%Q).
Proof.
  intros c.
  assert (Hout : (predict two_units 0 step_two).2 = Returned [c]) by (by vm_compute).
  assert (Hc : c ∈ [c]) by (apply list_elem_of_singleton; reflexivity).
  assert (Hth : (0 < 0.6)%Q) by reflexivity.
  split; [exact Hout|]. split; [exact Hth|].
  exact (proj2 (is_deviating_threshold (E:=engines) 2 [0%nat] 7 15 median 20 0.6 no_transform 30
                  0%nat two_units 0 step_two [c] c
                  (reachable_init _) Hout Hc) Hth).
Defined.

(** The second step of two units returns one context for the one target. *)
Lemma predict_one_context_per_target_witness :
  let self := (predict two_units 0 step_two).1 in
  ∃ self' devs,
    predict self 1 step_two = (self', Returned devs) ∧ length devs = 1%nat.
Proof.
  intros self.
  pose proof (predict_one_context_per_target (E:=engines) 2 [0%nat] 7 15 median
                20 0.6 no_transform 30 0%nat self 1 step_two) as [Hshape Hret].
  destruct Hret as (self' & devs & Hp).
  - repeat constructor.
  - discriminate.
  - apply (reachable_full_step _ two_units 0 step_two);
      [apply reachable_full_init|reflexivity].
  - reflexivity.
  - exists self', devs. split; [exact Hp|]. exact (proj1 (Hshape self' devs Hp)).
Defined.

(** C5 fails as stated: with [knn] and [k = 0] the scorer refuses the
    reference group of unit 0, and [predict] raises. *)
Lemma insufficient_reference_is_raised :
  let mid := (ingest two_units_knn0 0 step_two).1 in
  PeerGrouping.get_target_and_reference (pg mid) 0 0 (dfs mid)
    = Returned ([1%Q], [[3%Q]]) ∧
  StrangenessScorer.fit knn 0 [[3%Q]] = Raised InsufficientReferenceError ∧
  (predict two_units_knn0 0 step_two).2 = Raised InsufficientReferenceError.
Proof. repeat split; by vm_compute. Qed.

(** The first step of two units under [knn] with [k = 0]. *)
Lemma predict_propagates_insufficient_reference_witness :
  (predict two_units_knn0 0 step_two).2 = Raised InsufficientReferenceError.
Proof.
  apply (predict_propagates_insufficient_reference
           two_units_knn0 0 step_two (ingest two_units_knn0 0 step_two).1
           0%nat 0%nat (ingest two_units_knn0 0 step_two).1 []
           (IndividualAnomalyInductive.init 15 knn 0 0.6) [1%Q] [[3%Q]]);
    by vm_compute.
Defined.

(** C6. Given one sample for a fleet of two, [predict] raises nothing: it
    returns a context for the target, and both lists of histories are left
    with one entry, the history of unit 1 gone.  Given three samples it
    ends on the [IndexError] of the list lookup. *)
Theorem predict_short_input_not_rejected :
  nb_units two_units = 2%nat ∧
  (predict two_units 0 step_one).2 = Returned [default_context] ∧
  dfs_original (predict two_units 0 step_one).1 = [[(0%Z, [1%Q])]] ∧
  dfs (predict two_units 0 step_one).1 = [[(0%Z, [1%Q])]] ∧
  (predict two_units 0 step_three).2 = Raised IndexError.
Proof. repeat split; by vm_compute. Qed.

(** The second step of two units: unit 1, no target, has both entries. *)
Lemma predict_appends_one_entry_witness :
  let self := (predict two_units 0 step_two).1 in
  let self' := (predict self 1 step_two).1 in
  dfs_original self' !! 1%nat = Some [(0%Z, [3%Q]); (1%Z, [3%Q])] ∧
  dfs self' !! 1%nat = Some [(0%Z, [3%Q]); (1%Z, [3%Q])].
Proof.
  intros self self'.
  destruct (predict_appends_one_entry (E:=engines) 2 [0%nat] 7 15 median 20 0.6
              no_transform 30 0%nat self 1 step_two 1%nat)
    as (raw & df & x & trf & Hr & Hd & Hx & Ht & Hr' & Hd' & _).
  - apply (reachable_full_step _ two_units 0 step_two);
      [apply reachable_full_init|reflexivity].
  - reflexivity.
  - lia.
  - vm_compute in Hr, Hd, Hx, Ht. simplify_eq. split; [exact Hr'|exact Hd'].
Defined.

(** The second step of three units: unit 1 is no target. *)
Lemma non_target_detector_untouched_witness :
  let self := (predict three_units 0 step_three).1 in
  let self' := (predict self 1 step_three).1 in
  detectors self' !! 1%nat = Some (IndividualAnomalyInductive.init 15 median 20 0.6) ∧
  ∃ raw df x y,
    dfs_original self !! 1%nat = Some raw ∧ dfs self !! 1%nat = Some df ∧
    dfs_original self' !! 1%nat = Some (raw ++ [(1%Z, x)]) ∧
    dfs self' !! 1%nat = Some (df ++ [(1%Z, y)]).
Proof.
  intros self self'.
  pose proof (non_target_detector_untouched (E:=engines) 3 [0%nat; 2%nat] 7 15
                median 20 0.6 no_transform 30 0%nat self 1 step_three 1%nat)
    as [_ Hfull].
  destruct Hfull as (_ & Hdet & _ & _ & _ & _ & _ & Hhist).
  - apply (reachable_full_step _ three_units 0 step_three);
      [apply reachable_full_init|reflexivity].
  - reflexivity.
  - lia.
  - intros Hin. repeat (apply elem_of_cons in Hin as [Hin|Hin]; [discriminate|]).
    by apply elem_of_nil in Hin.
  - split; [exact Hdet|exact Hhist].
Defined.

End Concrete.

(** * Further properties of [predict] *)

Section InputLength.
Context `{E : Engines}.
Import GroupAnomaly.

Lemma append_all_too_long (frames : list DataFrame) dt i xs :
  (i ≤ length frames)%nat →
  (length frames < i + length xs)%nat →
  append_all frames dt i xs = Raised IndexError.
Proof.
  revert i. induction xs as [|x xs IH]; intros i Hi Hlen; simpl in *; [lia|].
  destruct (frames !! i) as [df|] eqn:Hdf; [|done].
  apply lookup_lt_Some in Hdf. rewrite IH; [done|lia|lia].
Qed.

Lemma append_all_returned_le (frames : list DataFrame) dt xs r :
  append_all frames dt 0 xs = Returned r → (length xs ≤ length frames)%nat.
Proof.
  intros Hret. destruct (decide (length xs ≤ length frames)%nat); [done|].
  rewrite append_all_too_long in Hret by (simpl; lia). done.
Qed.

Lemma transform_all_lookup_ge xs trs j :
  (length xs ≤ j)%nat → (transform_all xs trs).1 !! j = trs !! j.
Proof.
  revert trs j. induction xs as [|x xs IH]; intros trs j Hj; [done|].
  destruct trs as [|tr trs]; [done|]. simpl in *.
  destruct (transform tr x) as [tr' y].
  specialize (IH trs). destruct (transform_all xs trs) as [trs' ys].
  destruct j as [|j]; [lia|]. simpl. apply IH. lia.
Qed.

(** [ingest] given no more samples than there are units. *)
Lemma ingest_short self dt x_units :
  well_formed self → (length x_units ≤ nb_units self)%nat →
  ∃ mid, ingest self dt x_units = (mid, Returned ()) ∧
    length (dfs_original mid) = length x_units ∧
    length (dfs mid) = length x_units ∧
    length (transformers mid) = nb_units self ∧
    (∀ i, (length x_units ≤ i)%nat → transformers mid !! i = transformers self !! i) ∧
    ∀ i x, x_units !! i = Some x →
      ∃ raw df tr,
        dfs_original self !! i = Some raw ∧ dfs self !! i = Some df ∧
        transformers self !! i = Some tr ∧
        dfs_original mid !! i = Some (raw ++ [(dt, x)]) ∧
        dfs mid !! i = Some (df ++ [(dt, (transform tr x).2)]) ∧
        transformers mid !! i = Some (transform tr x).1.
Proof.
  intros (Hraw & Hdf & Hdet & Htr) Hx. unfold ingest.
  destruct (append_all_returns (dfs_original self) dt 0 x_units) as [raws Hraws];
    [simpl; lia|].
  rewrite Hraws. simpl.
  pose proof (transform_all_length x_units (transformers self)) as [Hl1 Hl2].
  pose proof (transform_all_lookup x_units (transformers self)) as Hlook.
  pose proof (transform_all_lookup_ge x_units (transformers self)) as Hge.
  destruct (transform_all x_units (transformers self)) as [trs ys]. simpl in *.
  destruct (append_all_returns (dfs self) dt 0 ys) as [dfs' Hdfs'];
    [simpl; lia|].
  rewrite Hdfs'. eexists. split; [done|]. simpl.
  apply append_all_returned in Hraws as [Hlr Hr].
  apply append_all_returned in Hdfs' as [Hld Hd].
  split; [done|]. split; [lia|]. split; [lia|]. split; [done|].
  intros i x Hxi.
  destruct (lookup_lt_is_Some_2 (transformers self) i) as [tr Htri].
  { apply lookup_lt_Some in Hxi. lia. }
  destruct (Hlook i x tr Hxi Htri) as [Ht1 Ht2].
  destruct (Hr i x Hxi) as (raw & Hraw1 & Hraw2).
  destruct (Hd i _ Ht2) as (df & Hdf1 & Hdf2).
  by exists raw, df, tr.
Qed.

(** X2. A call given fewer samples than there are units is not refused at
    lines 95 to 98: of both lists of histories only the first
    [len(x_units)] entries are left, each extended by the step, the
    histories of the later units being dropped from the lists; the
    transformers of the later units are not advanced; the lists of
    detectors and transformers keep their length. *)
Theorem predict_short_input_truncates self dt x_units :
  well_formed self →
  (length x_units ≤ nb_units self)%nat →
  let self' := (predict self dt x_units).1 in
  (ingest self dt x_units).2 = Returned () ∧
  length (dfs_original self') = length x_units ∧
  length (dfs self') = length x_units ∧
  length (transformers self') = nb_units self ∧
  length (detectors self') = nb_units self ∧
  (∀ i, (length x_units ≤ i)%nat →
     dfs_original self' !! i = None ∧ dfs self' !! i = None ∧
     transformers self' !! i = transformers self !! i) ∧
  (∀ i x, x_units !! i = Some x →
     ∃ raw df tr,
       dfs_original self !! i = Some raw ∧ dfs self !! i = Some df ∧
       transformers self !! i = Some tr ∧
       dfs_original self' !! i = Some (raw ++ [(dt, x)]) ∧
       dfs self' !! i = Some (df ++ [(dt, (transform tr x).2)]) ∧
       transformers self' !! i = Some (transform tr x).1).
Proof.
  intros Hwf Hlen self'.
  destruct (ingest_short self dt x_units Hwf Hlen)
    as (mid & Hing & Hl1 & Hl2 & Hl3 & Hge & Hentries).
  pose proof (predict_evolves self dt x_units) as (_ & _ & _ & _ & Hcfg).
  apply Forall2_length in Hcfg.
  subst self'. rewrite (predict_after_ingest _ _ _ _ Hing) in *.
  destruct (predict_loop mid dt _ []) as [s' out] eqn:Hloop.
  apply predict_loop_frame in Hloop as [(_ & _ & _ & _ & Hraw & Hdf & Htr & _) _].
  simpl in *. rewrite Hraw, Hdf, Htr, Hing.
  destruct Hwf as (_ & _ & Hdet & _).
  split; [done|]. split; [done|]. split; [done|]. split; [done|].
  split; [lia|]. split.
  - intros i Hi. repeat split.
    + apply lookup_ge_None. lia.
    + apply lookup_ge_None. lia.
    + by apply Hge.
  - done.
Qed.

(** X4. A call given more samples than [self.dfs_original] has entries
    raises [IndexError] at line 95: no transformer is advanced, no detector
    is fitted or queried, no transformed history is extended. *)
Theorem predict_long_input_raises self dt x_units :
  (length (dfs_original self) < length x_units)%nat →
  let self' := (predict self dt x_units).1 in
  (predict self dt x_units).2 = Raised IndexError ∧
  transformers self' = transformers self ∧
  detectors self' = detectors self ∧
  dfs self' = dfs self ∧
  random_state self' = random_state self.
Proof.
  intros Hlen. unfold predict, ingest.
  by rewrite append_all_too_long by (simpl; lia).
Qed.

Lemma predict_short_raw_length self dt x_units :
  well_formed self → (length x_units ≤ nb_units self)%nat →
  length (dfs_original (predict self dt x_units).1) = length x_units.
Proof.
  intros Hwf Hlen.
  destruct (ingest_short self dt x_units Hwf Hlen) as (mid & Hing & Hl1 & _).
  rewrite (predict_after_ingest _ _ _ _ Hing).
  destruct (predict_loop mid dt _ []) as [s' out] eqn:Hloop.
  apply predict_loop_frame in Hloop as [(_ & _ & _ & _ & Hraw & _) _].
  simpl. by rewrite Hraw.
Qed.

(** X3. Once a call was given fewer samples than there are units, every
    later call given one sample per unit raises [IndexError]. *)
Theorem predict_after_short_input self dt x_units dt' x_units' :
  well_formed self →
  (length x_units < nb_units self)%nat →
  length x_units' = nb_units self →
  (predict (predict self dt x_units).1 dt' x_units').2 = Raised IndexError.
Proof.
  intros Hwf Hshort Hfull.
  pose proof (predict_short_raw_length self dt x_units Hwf) as Hl.
  unfold predict at 1, ingest.
  by rewrite append_all_too_long by (simpl; lia).
Qed.

End InputLength.

Section Shape.
Context `{E : Engines}.
Import GroupAnomaly.

Lemma ingest_shape self dt x_units :
  let mid := (ingest self dt x_units).1 in
  length (transformers mid) = length (transformers self) ∧
  (length (dfs_original mid) ≤ length (dfs_original self))%nat ∧
  (length (dfs mid) ≤ length (dfs self))%nat.
Proof.
  unfold ingest.
  destruct (append_all (dfs_original self) dt 0 x_units) as [raws|] eqn:Hraws;
    [|done].
  pose proof (append_all_returned_le _ _ _ _ Hraws) as Hle.
  apply append_all_returned in Hraws as [Hlr _]. simpl.
  pose proof (transform_all_length x_units (transformers self)) as [Hl1 Hl2].
  destruct (transform_all x_units (transformers self)) as [trs ys]. simpl in *.
  destruct (append_all (dfs self) dt 0 ys) as [dfs'|] eqn:Hdfs; simpl.
  - pose proof (append_all_returned_le _ _ _ _ Hdfs) as Hle'.
    apply append_all_returned in Hdfs as [Hld _]. lia.
  - lia.
Qed.

(** X7. No call of [predict], whatever it is given and however it ends,
    changes [nb_units], [ids_target_units], the peer grouping or
    [dev_threshold], nor the number of detectors and of transformers; and
    neither list of histories ever gets longer. *)
Theorem predict_keeps_shape self dt x_units :
  let self' := (predict self dt x_units).1 in
  nb_units self' = nb_units self ∧
  ids_target_units self' = ids_target_units self ∧
  pg self' = pg self ∧
  dev_threshold self' = dev_threshold self ∧
  length (detectors self') = length (detectors self) ∧
  length (transformers self') = length (transformers self) ∧
  (length (dfs_original self') ≤ length (dfs_original self))%nat ∧
  (length (dfs self') ≤ length (dfs self))%nat.
Proof.
  intros self'.
  pose proof (predict_evolves self dt x_units) as (Hn & Hids & Hpg & Hth & Hcfg).
  apply Forall2_length in Hcfg.
  repeat (split; [done|]).
  pose proof (ingest_shape self dt x_units) as (Ht & Hr & Hd).
  subst self'. unfold predict.
  destruct (ingest self dt x_units) as [mid [[]|e]] eqn:Hing; simpl in *; [|done].
  destruct (predict_loop mid dt _ []) as [s' out] eqn:Hloop.
  apply predict_loop_frame in Hloop as [(_ & _ & _ & _ & Hraw & Hdf & Htr & _) _].
  simpl. by rewrite Hraw, Hdf, Htr.
Qed.

(** A call given one sample per unit, entry by entry, transformers
    included. *)
Lemma predict_full_entries self dt x_units :
  well_formed self → length x_units = nb_units self →
  let self' := (predict self dt x_units).1 in
  well_formed self' ∧ nb_units self' = nb_units self ∧
  ∀ i x, x_units !! i = Some x →
    ∃ raw df tr,
      dfs_original self !! i = Some raw ∧ dfs self !! i = Some df ∧
      transformers self !! i = Some tr ∧
      dfs_original self' !! i = Some (raw ++ [(dt, x)]) ∧
      dfs self' !! i = Some (df ++ [(dt, (transform tr x).2)]) ∧
      transformers self' !! i = Some (transform tr x).1.
Proof.
  intros Hwf Hlen self'.
  destruct (predict_full self dt x_units Hwf Hlen) as (Hwf' & _ & _).
  pose proof (predict_evolves self dt x_units) as (Hn & _).
  split; [done|]. split; [done|].
  destruct (ingest_short self dt x_units Hwf) as (mid & Hing & _ & _ & _ & _ & Hent);
    [lia|].
  subst self'. rewrite (predict_after_ingest _ _ _ _ Hing).
  destruct (predict_loop mid dt _ []) as [s' out] eqn:Hloop.
  apply predict_loop_frame in Hloop as [(_ & _ & _ & _ & Hraw & Hdf & Htr & _) _].
  simpl. rewrite Hraw, Hdf, Htr. done.
Qed.

(** A run over steps that each bring one sample per unit: what every unit's
    histories and transformer have become. *)
Lemma run_entries self stream i raw df tr :
  well_formed self →
  Forall (λ step, length step.2 = nb_units self) stream →
  (i < nb_units self)%nat →
  dfs_original self !! i = Some raw → dfs self !! i = Some df →
  transformers self !! i = Some tr →
  let fed := column i (take (length (run self stream).2) stream) in
  dfs_original (run self stream).1 !! i = Some (raw ++ fed) ∧
  dfs (run self stream).1 !! i = Some (df ++ (transform_entries tr fed).2) ∧
  transformers (run self stream).1 !! i = Some (transform_entries tr fed).1.
Proof.
  revert self raw df tr.
  induction stream as [|[dt xs] stream IH]; intros self raw df tr Hwf Hfull Hi Hr Hd Ht.
  - simpl. by rewrite !app_nil_r.
  - apply Forall_cons in Hfull as [Hlen Hfull]. simpl in Hlen.
    destruct (predict_full_entries self dt xs Hwf Hlen) as (Hwf' & Hn & Hent).
    destruct (lookup_lt_is_Some_2 xs i) as [x Hx]; [lia|].
    destruct (Hent i x Hx) as (raw' & df' & tr' & Hr0 & Hd0 & Ht0 & Hr1 & Hd1 & Ht1).
    simplify_eq. simpl.
    destruct (predict self dt xs) as [s1 [devs|e]] eqn:Hp; simpl in *.
    + destruct (IH s1 (raw ++ [(dt, x)]) (df ++ [(dt, (transform tr x).2)])
                 (transform tr x).1) as (IH1 & IH2 & IH3);
        [done|by rewrite Hn|lia|done|done|done|].
      destruct (run s1 stream) as [s2 outs] eqn:Hrun. simpl in *.
      rewrite Hx. simpl.
      destruct (transform tr x) as [tr1 y] eqn:Htr. simpl in *.
      destruct (transform_entries tr1 _) as [tr2 out] eqn:Hte. simpl in *.
      rewrite IH1, IH2, IH3, <- !app_assoc. done.
    + unfold column. simpl. rewrite Hx. simpl.
      destruct (transform tr x) as [tr1 y] eqn:Htr. simpl in *. done.
Qed.

Lemma run_length self stream :
  (length (run self stream).2 ≤ length stream)%nat ∧
  ((∀ e, Raised e ∉ (run self stream).2) →
   length (run self stream).2 = length stream).
Proof.
  revert self. induction stream as [|[dt xs] stream IH]; intros self; simpl; [done|].
  destruct (predict self dt xs) as [s1 [devs|e]]; simpl.
  - specialize (IH s1). destruct (run s1 stream) as [s2 outs]. simpl in *.
    destruct IH as [IH1 IH2]. split; [lia|].
    intros Hno. rewrite IH2; [done|].
    intros e He. apply (Hno e). by right.
  - split; [lia|]. intros Hno. exfalso. apply (Hno e). by left.
Qed.

Section FromInit.
Variables (n : nat) (ids : list nat) (w : Z) (wm : nat)
          (nc : NonConformity) (kk : Z) (th : Q)
          (tr : TransformerKind) (wt : nat) (seed : Rng).

Local Abbreviation s0 := (init n ids w wm nc kk th tr wt seed).

(** X6. Run from construction over steps that each bring one sample per
    unit: the raw history of every unit is exactly the unit's own samples
    with their timestamps, in the order fed, for the calls that were made
    (all of them when none raised). *)
Theorem run_records_raw_stream stream i :
  Forall (λ step, length step.2 = n) stream →
  (i < n)%nat →
  let made := take (length (run s0 stream).2) stream in
  dfs_original (run s0 stream).1 !! i = Some (column i made) ∧
  ((∀ e, Raised e ∉ (run s0 stream).2) → made = stream).
Proof.
  intros Hfull Hi made. split.
  - destruct (run_entries s0 stream i [] [] (Transformer_new wt tr))
      as (H1 & _); try done.
    + apply init_well_formed.
    + simpl. by apply lookup_replicate.
    + simpl. by apply lookup_replicate.
    + simpl. by apply lookup_replicate.
  - intros Hno. subst made.
    rewrite (proj2 (run_length s0 stream) Hno). apply firstn_all.
Qed.

(** X5. In the same run, every unit's transformer has been fed exactly the
    unit's own raw samples, once each and in order, target or not; the
    unit's transformed history is what it produced. *)
Theorem run_transforms_own_stream stream i :
  Forall (λ step, length step.2 = n) stream →
  (i < n)%nat →
  let made := take (length (run s0 stream).2) stream in
  let fed := transform_entries (Transformer_new wt tr) (column i made) in
  transformers (run s0 stream).1 !! i = Some fed.1 ∧
  dfs (run s0 stream).1 !! i = Some fed.2.
Proof.
  intros Hfull Hi made fed.
  destruct (run_entries s0 stream i [] [] (Transformer_new wt tr))
    as (_ & H2 & H3); try done.
  - apply init_well_formed.
  - simpl. by apply lookup_replicate.
  - simpl. by apply lookup_replicate.
  - simpl. by apply lookup_replicate.
Qed.

Lemma predict_loop_in_range self dt (targets : list nat) :
  evolves s0 self →
  Forall (λ uid, (uid < n)%nat) targets →
  (nc = knn → kk ≠ 0%Z) →
  ∃ self' devs, predict_loop self dt targets [] = (self', Returned devs).
Proof.
  intros Hev Hids Hk. apply predict_loop_returns.
  eapply Forall_impl; [exact Hids|]. simpl. intros uid Huid.
  destruct (evolved_detector_lookup n ids w wm nc kk th tr wt seed self uid Hev Huid)
    as (d & Hd & (_ & Hnc & Hkk & _)).
  exists d. split; [done|]. simpl in Hnc, Hkk. by rewrite Hnc, Hkk.
Qed.

(** The loop stops on [IndexError] at the first target id that is no unit. *)
Lemma predict_out_of_range_raises self dt x_units m uid :
  ids !! m = Some uid →
  (n ≤ uid)%nat →
  Forall (λ u, (u < n)%nat) (take m ids) →
  (nc = knn → kk ≠ 0%Z) →
  reachable_full s0 self →
  length x_units = n →
  (predict self dt x_units).2 = Raised IndexError.
Proof.
  intros Hm Huid Hpre Hk Hreach Hlen.
  destruct (reachable_full_inv s0 self) as (Hwf & _ & Hev & _);
    [apply init_well_formed|apply init_histories_aligned|done|].
  pose proof Hev as (Hn & Hids & _ & _ & Hcfg). simpl in Hn, Hids, Hcfg.
  destruct (ingest_short self dt x_units Hwf) as (mid & Hing & _); [lia|].
  pose proof (ingest_frame self dt x_units) as (_ & Hmids & _ & _ & Hdet & _).
  rewrite Hing in Hmids, Hdet. simpl in Hmids, Hdet.
  rewrite (predict_after_ingest _ _ _ _ Hing), Hmids, Hids.
  rewrite <- (take_drop_middle ids m uid Hm), predict_loop_app.
  assert (Hev' : evolves s0 mid).
  { eapply evolves_trans; [exact Hev|].
    pose proof (ingest_frame self dt x_units) as (?&?&?&?&?&_).
    rewrite Hing in *. simpl in *. repeat split; try done.
    rewrite Hdet. apply same_config_all_refl. }
  destruct (predict_loop_in_range mid dt (take m ids) Hev' Hpre Hk)
    as (s_m & devs_m & Hloop).
  rewrite Hloop. simpl.
  apply predict_loop_frame in Hloop as [(_ & _ & _ & _ & _ & _ & _ & Hcfg') _].
  apply Forall2_length in Hcfg, Hcfg'. rewrite length_replicate in Hcfg.
  unfold diagnose. rewrite (proj2 (lookup_ge_None _ _)); [done|].
  rewrite <- Hcfg', Hdet, <- Hcfg. done.
Qed.

(** X1. The constructor accepts a target id that is no unit. Then every
    call given one sample per unit raises [IndexError] at line 103, once
    the targets listed before that id have had their turn; by then the
    samples of the step are already in the histories. *)
Theorem predict_target_out_of_range self dt x_units m uid :
  ids !! m = Some uid →
  (n ≤ uid)%nat →
  Forall (λ u, (u < n)%nat) (take m ids) →
  (nc = knn → kk ≠ 0%Z) →
  reachable_full s0 self →
  length x_units = n →
  let self' := (predict self dt x_units).1 in
  (predict self dt x_units).2 = Raised IndexError ∧
  ∀ i x, x_units !! i = Some x →
    ∃ raw df y,
      dfs_original self !! i = Some raw ∧ dfs self !! i = Some df ∧
      dfs_original self' !! i = Some (raw ++ [(dt, x)]) ∧
      dfs self' !! i = Some (df ++ [(dt, y)]).
Proof.
  intros Hm Huid Hpre Hk Hreach Hlen self'.
  split; [by eapply predict_out_of_range_raises|].
  destruct (reachable_full_inv s0 self) as (Hwf & _ & (Hn & _) & _);
    [apply init_well_formed|apply init_histories_aligned|done|].
  simpl in Hn. intros i x Hx.
  destruct (predict_full_entries self dt x_units Hwf) as (_ & _ & Hent); [lia|].
  destruct (Hent i x Hx) as (raw & df & trf & ? & ? & ? & ? & ? & ?).
  by exists raw, df, (transform trf x).2.
Qed.

End FromInit.

End Shape.

(** * [plot_deviations] *)

(** Membership in a list that is written out. *)
Ltac listed :=
  repeat first [apply list_elem_of_here | apply list_elem_of_further].

Ltac not_listed H :=
  repeat (apply elem_of_cons in H as [H|H]; [discriminate H|]);
  by apply elem_of_nil in H.

Section PlotLayout.
Context `{E : Engines}.
Import GroupAnomaly.

Lemma py_in_spec x plots : py_in x plots = true ↔ x ∈ plots.
Proof. unfold py_in. by rewrite bool_decide_eq_true. Qed.

Lemma py_in_remove_dups x plots : py_in x (remove_dups plots) = py_in x plots.
Proof.
  apply eq_true_iff_eq. rewrite !py_in_spec. apply elem_of_remove_dups.
Qed.

Lemma any_deviation_plot_spec plots :
  any_deviation_plot plots = true ↔
  "pvalue" ∈ plots ∨ "deviation" ∈ plots ∨ "threshold" ∈ plots.
Proof.
  unfold any_deviation_plot. rewrite existsb_exists. split.
  - intros (s & Hs%list_elem_of_In & Hin%py_in_spec).
    repeat (apply elem_of_cons in Hin as [->|Hin]; [tauto|]).
    by apply elem_of_nil in Hin.
  - intros [H|[H|H]]; eexists; (split; [apply list_elem_of_In, H|]);
      by vm_compute.
Qed.

Lemma elem_of_list_remove_ne x y l :
  y ≠ x → y ∈ list_remove x l ↔ y ∈ l.
Proof.
  intros Hne. induction l as [|z l IH]; simpl; [done|].
  destruct (decide (z = x)) as [->|Hz].
  - rewrite elem_of_cons. tauto.
  - rewrite !elem_of_cons, IH. done.
Qed.

Lemma elem_of_list_remove_eq x l :
  x ∈ list_remove x l ↔ (2 ≤ occurrences x l)%nat.
Proof.
  unfold occurrences. induction l as [|z l IH]; simpl.
  - split; [by intros ?%elem_of_nil|lia].
  - rewrite filter_cons. destruct (decide (z = x)) as [->|Hz]; simpl.
    + split.
      * intros Hin. assert (x ∈ filter (λ y, y = x) l) as Hf
          by (by apply list_elem_of_filter).
        destruct (filter (λ y, y = x) l); [by apply elem_of_nil in Hf|simpl; lia].
      * intros Hlen. destruct (filter (λ y, y = x) l) as [|y f] eqn:Hf;
          [simpl in Hlen; lia|].
        assert (y ∈ filter (λ y, y = x) l) as Hy by (rewrite Hf; left).
        by apply list_elem_of_filter in Hy as [-> ?].
    + rewrite elem_of_cons, IH. split; [|auto].
      intros [->|?]; done.
Qed.

Lemma occurrences_elem_of x l : x ∈ l ↔ (1 ≤ occurrences x l)%nat.
Proof.
  unfold occurrences. split.
  - intros Hin. assert (x ∈ filter (λ y, y = x) l) as Hf
      by (by apply list_elem_of_filter).
    destruct (filter (λ y, y = x) l); [by apply elem_of_nil in Hf|simpl; lia].
  - intros Hlen. destruct (filter (λ y, y = x) l) as [|y f] eqn:Hf;
      [simpl in Hlen; lia|].
    assert (y ∈ filter (λ y, y = x) l) as Hy by (rewrite Hf; left).
    by apply list_elem_of_filter in Hy as [-> ?].
Qed.

(** The object that line 123 leaves, and the names it still holds. *)
Lemma plots_object_names m self plots :
  register_converters m = true →
  let object := plots_object (plot_deviations m self plots) in
  (∀ y, y ≠ "transformed_data" → y ∈ object ↔ y ∈ plots) ∧
  ("transformed_data" ∈ object ↔
     match transformer self with
     | no_transform => (2 ≤ occurrences "transformed_data" plots)%nat
     | pvalue_transform => "transformed_data" ∈ plots
     end).
Proof.
  intros Hreg.
  assert (∃ nb used e, plot_deviations m self plots =
    mkPlotting
      match transformer self with
      | no_transform =>
          if py_in "transformed_data" plots
          then list_remove "transformed_data" plots else plots
      | pvalue_transform => plots
      end nb used e) as (nb & used & e & ->).
  { unfold plot_deviations. rewrite Hreg. cbn [negb]. cbv zeta.
    repeat match goal with
    | |- context [if ?b then _ else _] => destruct b
    | |- context [match ?x with (_, _) => _ end] => destruct x
    | |- context [match ?x with Some _ => _ | None => _ end] => destruct x
    end; eauto. }
  cbn [plots_object]. split.
  - intros y Hy. destruct (transformer self); [|done].
    destruct (py_in _ plots); [|done]. by apply elem_of_list_remove_ne.
  - destruct (transformer self); [|done].
    destruct (py_in _ plots) eqn:Hin.
    + apply elem_of_list_remove_eq.
    + assert (Hno : "transformed_data" ∉ plots)
        by (rewrite <- py_in_spec; congruence).
      split; [done|]. intros Hocc. exfalso. apply Hno.
      apply occurrences_elem_of. lia.
Qed.

(** X8. Whatever [plots] holds and wherever the call ends, the blocks of
    [plot_deviations] that were entered took the axes [0, 1, ...] in this
    order, one block per axis, and never indexed past the axes that were
    asked for, of which there are at most four; a call that returns has
    drawn on every axis. *)
Theorem plot_deviations_axes m self plots :
  let plotting := plot_deviations m self plots in
  (axes_used plotting).*1 = seq 0 (length (axes_used plotting)) ∧
  NoDup (axes_used plotting).*2 ∧
  (length (axes_used plotting) ≤ nb_axs plotting ≤ 4)%nat ∧
  (∀ i, ending plotting ≠ axis_out_of_range i) ∧
  (ending plotting = shown →
   (axes_used plotting).*1 = seq 0 (nb_axs plotting)).
Proof.
  unfold plot_deviations.
  destruct (register_converters m); cbn [negb];
    [|simpl; repeat split; try done; try lia; apply NoDup_nil_2].
  generalize (remove_dups
    match transformer self with
    | no_transform =>
        if py_in "transformed_data" plots
        then list_remove "transformed_data" plots else plots
    | pvalue_transform => plots
    end). intros l. unfold plot_block.
  destruct (py_in "data" l), (py_in "transformed_data" l),
    (py_in "strangeness" l), (any_deviation_plot l); cbv zeta; simpl;
    (match goal with |- context [subplots m ?n] => destruct (subplots m n) end);
    destruct (draw m data_panel), (draw m transformed_data_panel),
      (draw m strangeness_panel), (draw m deviation_panel), (show m); simpl;
    (split; [done|]); (split; [|split; [lia|split; [done|done]]]);
    repeat (apply NoDup_cons; split; [intros H; not_listed H|]);
    apply NoDup_nil_2.
Qed.

(** X9. Which panels [plot_deviations] draws, by the names in [plots].  A
    block is entered only for its names: the data and strangeness blocks
    when named; the deviation block when any of ["pvalue"], ["deviation"],
    ["threshold"] is named; the transformed data block when named and a
    transformer is configured, and, when none is, only if
    ["transformed_data"] is given at least twice (line 123 removes one
    occurrence).  A call that returns has entered every such block.  Other
    names are ignored. *)
Theorem plot_deviations_panels m self plots :
  let plotting := plot_deviations m self plots in
  let panels := (axes_used plotting).*2 in
  let named p :=
    match p with
    | data_panel => "data" ∈ plots
    | strangeness_panel => "strangeness" ∈ plots
    | deviation_panel =>
        "pvalue" ∈ plots ∨ "deviation" ∈ plots ∨ "threshold" ∈ plots
    | transformed_data_panel =>
        match transformer self with
        | no_transform => (2 ≤ occurrences "transformed_data" plots)%nat
        | pvalue_transform => "transformed_data" ∈ plots
        end
    end in
  (∀ p, p ∈ panels → named p) ∧
  (ending plotting = shown → ∀ p, named p → p ∈ panels).
Proof.
  cbv zeta.
  destruct (register_converters m) eqn:Hreg;
    [|unfold plot_deviations; rewrite Hreg; simpl;
      split; [by intros p ?%elem_of_nil|done]].
  pose proof (plots_object_names m self plots Hreg) as [Hother Htd].
  cbv zeta in Hother, Htd. revert Hother Htd.
  unfold plot_deviations. rewrite Hreg. cbn [negb]. cbv zeta.
  set (object :=
    match transformer self with
    | no_transform =>
        if py_in "transformed_data" plots
        then list_remove "transformed_data" plots else plots
    | pvalue_transform => plots
    end).
  assert (Hobject : ∀ nb used e, plots_object (mkPlotting object nb used e) = object)
    by done.
  intros Hother Htd.
  assert (Hother' : ∀ y, y ≠ "transformed_data" → y ∈ object ↔ y ∈ plots).
  { intros y Hy. specialize (Hother y Hy). revert Hother. unfold plot_block.
    repeat match goal with
    | |- context [if ?b then _ else _] => destruct b
    end; by rewrite ?Hobject. }
  assert (Htd' : "transformed_data" ∈ object ↔
     match transformer self with
     | no_transform => (2 ≤ occurrences "transformed_data" plots)%nat
     | pvalue_transform => "transformed_data" ∈ plots
     end).
  { revert Htd. unfold plot_block.
    repeat match goal with
    | |- context [if ?b then _ else _] => destruct b
    end; by rewrite ?Hobject. }
  clear Hother Htd Hobject.
  assert (Hnamed : ∀ p,
    match p with
    | data_panel => "data" ∈ plots
    | strangeness_panel => "strangeness" ∈ plots
    | deviation_panel =>
        "pvalue" ∈ plots ∨ "deviation" ∈ plots ∨ "threshold" ∈ plots
    | transformed_data_panel =>
        match transformer self with
        | no_transform => (2 ≤ occurrences "transformed_data" plots)%nat
        | pvalue_transform => "transformed_data" ∈ plots
        end
    end ↔
    match p with
    | data_panel => py_in "data" (remove_dups object) = true
    | strangeness_panel => py_in "strangeness" (remove_dups object) = true
    | deviation_panel => any_deviation_plot (remove_dups object) = true
    | transformed_data_panel =>
        py_in "transformed_data" (remove_dups object) = true
    end).
  { intros p. destruct p.
    - by rewrite py_in_spec, elem_of_remove_dups, Hother'.
    - by rewrite py_in_spec, elem_of_remove_dups, Htd'.
    - by rewrite py_in_spec, elem_of_remove_dups, Hother'.
    - by rewrite any_deviation_plot_spec, !elem_of_remove_dups, !Hother'. }
  clear Hother' Htd'. unfold plot_block.
  split.
  - intros p Hp. apply Hnamed. revert Hp. clear Hnamed.
    destruct (py_in "data" (remove_dups object)),
      (py_in "transformed_data" (remove_dups object)),
      (py_in "strangeness" (remove_dups object)),
      (any_deviation_plot (remove_dups object)); simpl;
      (match goal with |- context [subplots m ?n] => destruct (subplots m n) end);
      destruct (draw m data_panel), (draw m transformed_data_panel),
        (draw m strangeness_panel), (draw m deviation_panel), (show m); simpl;
      intros H; destruct p; try done; not_listed H.
  - intros Hend p Hp. apply Hnamed in Hp. revert Hend Hp. clear Hnamed.
    destruct (py_in "data" (remove_dups object)),
      (py_in "transformed_data" (remove_dups object)),
      (py_in "strangeness" (remove_dups object)),
      (any_deviation_plot (remove_dups object)); simpl;
      (match goal with |- context [subplots m ?n] => destruct (subplots m n) end);
      destruct (draw m data_panel), (draw m transformed_data_panel),
        (draw m strangeness_panel), (draw m deviation_panel), (show m); simpl;
      intros Hend Hp; destruct p; try done; by listed.
Qed.

(** X10. The default of [plots] is one shared list.  A call that leaves
    [plots] out on an object without transformer takes ["transformed_data"]
    out of that list as soon as line 120 has returned, whether or not the
    call then draws anything.  A later call that leaves [plots] out, on
    any object, asks for three axes and enters no transformed data block,
    and if it returns it has drawn the three other panels; whereas on an
    object with a transformer the list as it is written in the source asks
    for four axes and, if the call returns, gives four panels. *)
Theorem plot_deviations_default_is_shared m1 m2 s1 s2 :
  transformer s1 = no_transform →
  register_converters m1 = true →
  let defaults' := (plot_deviations_default m1 s1 default_plots).1 in
  let later := (plot_deviations_default m2 s2 defaults').2 in
  let fresh := (plot_deviations_default m2 s2 default_plots).2 in
  defaults' = ["data"; "strangeness"; "deviation"; "threshold"] ∧
  (transformed_data_panel ∉ (axes_used later).*2) ∧
  (register_converters m2 = true → nb_axs later = 3%nat) ∧
  (ending later = shown →
   axes_used later
     = [(0%nat, data_panel); (1%nat, strangeness_panel); (2%nat, deviation_panel)]) ∧
  (transformer s2 = pvalue_transform →
   (register_converters m2 = true → nb_axs fresh = 4%nat) ∧
   (ending fresh = shown →
    axes_used fresh
      = [(0%nat, data_panel); (1%nat, transformed_data_panel);
         (2%nat, strangeness_panel); (3%nat, deviation_panel)])).
Proof.
  intros H1 Hreg. cbv zeta.
  destruct m1 as [reg1 subplots1 draw1 show1], m2 as [reg2 subplots2 draw2 show2].
  simpl in Hreg. subst reg1.
  assert (Hdefaults :
    (plot_deviations_default (mkMatplotlib true subplots1 draw1 show1) s1
       default_plots).1 = ["data"; "strangeness"; "deviation"; "threshold"]).
  { unfold plot_deviations_default, plot_deviations, plot_block.
    rewrite H1. vm_compute.
    destruct (subplots1 3%nat); [|done].
    destruct (draw1 data_panel); [|done].
    destruct (draw1 strangeness_panel); [|done].
    by destruct (draw1 deviation_panel). }
  rewrite Hdefaults. split; [done|].
  unfold plot_deviations_default, plot_deviations, plot_block. cbn [fst snd].
  destruct reg2; cbn [negb register_converters].
  - split; [|split; [|split]].
    + destruct (transformer s2); vm_compute;
        destruct (subplots2 3%nat), (draw2 data_panel),
          (draw2 strangeness_panel), (draw2 deviation_panel), show2;
        intros H; not_listed H.
    + intros _. destruct (transformer s2); vm_compute;
        destruct (subplots2 3%nat), (draw2 data_panel),
          (draw2 strangeness_panel), (draw2 deviation_panel), show2;
        done.
    + destruct (transformer s2); vm_compute;
        destruct (subplots2 3%nat), (draw2 data_panel),
          (draw2 strangeness_panel), (draw2 deviation_panel), show2;
        done.
    + intros ->. vm_compute.
      destruct (subplots2 4%nat), (draw2 data_panel),
        (draw2 transformed_data_panel),
        (draw2 strangeness_panel), (draw2 deviation_panel), show2;
        done.
  - simpl. split; [by intros ?%elem_of_nil|]. done.
Qed.

End PlotLayout.

(** * [plot_explanations] *)

Section FeatureRanking.
Import GroupAnomaly.

Lemma elem_of_drop_lookup {A} (l : list A) k x :
  x ∈ drop k l ↔ ∃ p, (k ≤ p)%nat ∧ l !! p = Some x.
Proof.
  rewrite list_elem_of_lookup. split.
  - intros [i Hi]. rewrite lookup_drop in Hi. exists (k + i)%nat. split; [lia|done].
  - intros (p & Hp & Hl). exists (p - k)%nat. rewrite lookup_drop.
    by replace (k + (p - k))%nat with p by lia.
Qed.

Variable argsort : list Q → list nat.
Hypothesis argsort_sorts : sorts_ascending argsort.

Lemma length_features_scores columns :
  length (features_scores columns) = length columns.
Proof. unfold features_scores. by rewrite !length_map. Qed.

Lemma length_argsort l : length (argsort l) = length l.
Proof using argsort_sorts.
  destruct (argsort_sorts l) as [Hperm _].
  by rewrite Hperm, length_seq.
Qed.

Lemma NoDup_argsort l : NoDup (argsort l).
Proof using argsort_sorts.
  destruct (argsort_sorts l) as [Hperm _]. rewrite Hperm. apply NoDup_seq.
Qed.

Lemma elem_of_argsort l a : a ∈ argsort l ↔ (a < length l)%nat.
Proof using argsort_sorts.
  destruct (argsort_sorts l) as [Hperm _]. rewrite Hperm, elem_of_seq. lia.
Qed.

(** With a positive [nb_features], line 202 takes the last
    [min(nb_features, width)] indices. *)
Lemma slice_last_positive nb_features l :
  (0 < nb_features)%Z →
  let nb := Z.min nb_features (Z.of_nat (length l)) in
  slice_last nb (argsort l) = drop (length l - Z.to_nat nb) (argsort l).
Proof using argsort_sorts.
  intros Hpos nb. unfold slice_last.
  destruct (Z.ltb_spec 0 nb) as [Hnb|Hnb].
  - by rewrite length_argsort.
  - assert (length l = 0%nat) as Hl by lia.
    assert (argsort l = []) as ->.
    { apply length_zero_iff_nil. by rewrite length_argsort. }
    by rewrite !drop_nil.
Qed.

(** X11. With a positive [nb_features], [plot_explanations] shows
    [min(nb_features, width)] features, as many as the figure has rows:
    distinct columns of the differences, and, when the scores are proper
    numbers, listed from the highest score down, none of the features left
    out scoring above one that is shown. *)
Theorem plot_explanations_top_features nb_features columns :
  (0 < nb_features)%Z →
  let nb := Z.min nb_features (Z.of_nat (length columns)) in
  let scores := features_scores columns in
  let features_ids := (plot_explanations_features argsort nb_features columns).2 in
  (plot_explanations_features argsort nb_features columns).1 = (nb, scores) ∧
  length features_ids = Z.to_nat nb ∧
  NoDup features_ids ∧
  (∀ a, a ∈ features_ids → (a < length columns)%nat) ∧
  (proper_diffs columns →
   (∀ i j a b u v,
      (i ≤ j)%nat → features_ids !! i = Some a → features_ids !! j = Some b →
      scores !! a = Some u → scores !! b = Some v → (v <= u)%Q) ∧
   (∀ a b u v,
      a ∈ features_ids → b ∉ features_ids →
      scores !! a = Some u → scores !! b = Some v → (v <= u)%Q)).
Proof using argsort_sorts.
  intros Hpos nb scores features_ids.
  pose proof (length_features_scores columns) as Hwidth.
  pose proof (slice_last_positive nb_features (features_scores columns) Hpos)
    as Hslice.
  cbv zeta in Hslice. rewrite Hwidth in Hslice.
  subst features_ids nb scores.
  unfold plot_explanations_features. cbv zeta. cbn [fst snd].
  rewrite Hslice. clear Hslice.
  pose proof (length_argsort (features_scores columns)) as Hlen.
  rewrite Hwidth in Hlen.
  destruct (argsort_sorts (features_scores columns)) as [_ Hsorted].
  set (scores := features_scores columns) in *.
  set (nb := Z.min nb_features (Z.of_nat (length columns))) in *.
  set (off := (length columns - Z.to_nat nb)%nat).
  split; [done|]. split; [|split; [|split]].
  - rewrite length_reverse, length_drop, Hlen. subst off. lia.
  - rewrite reverse_Permutation.
    apply (sublist_NoDup _ (argsort scores)); [apply NoDup_argsort|apply sublist_drop].
  - intros a [p [_ Hp]]%elem_of_reverse%elem_of_drop_lookup.
    rewrite <- Hwidth. apply elem_of_argsort. by eapply list_elem_of_lookup_2.
  - intros _. split.
    + intros i j a b u v Hij [Ha Hi]%reverse_lookup_Some [Hb Hj]%reverse_lookup_Some Hu Hv.
      rewrite lookup_drop in Ha, Hb.
      eapply (Hsorted _ _ b a v u); [|exact Hb|exact Ha|done|done]. lia.
    + intros a b u v [pa [Hpa Ha]]%elem_of_reverse%elem_of_drop_lookup Hb Hu Hv.
      assert (b ∈ argsort scores) as [pb Hpb]%list_elem_of_lookup.
      { apply elem_of_argsort. by eapply lookup_lt_Some. }
      eapply (Hsorted pb pa b a v u); [|done|done|done|done].
      destruct (decide (off ≤ pb)%nat) as [Hge|]; [|lia].
      exfalso. apply Hb. apply elem_of_reverse, elem_of_drop_lookup. eauto.
Qed.

(** X12. With [nb_features] zero or negative, line 199 leaves it as it is
    and the slice of line 202 drops the first [|nb_features|] indices of
    the ascending order: [features_ids] holds every feature but the
    [|nb_features|] lowest scoring ones (every feature for [0], none once
    [|nb_features|] reaches the width), distinct, and, when the scores
    are proper numbers, from the highest score down, none of the features
    dropped scoring above one that is kept. *)
Theorem plot_explanations_nonpositive_nb_features nb_features columns :
  (nb_features ≤ 0)%Z →
  let scores := features_scores columns in
  let features_ids := (plot_explanations_features argsort nb_features columns).2 in
  let dropped := take (Z.to_nat (- nb_features)) (argsort scores) in
  (plot_explanations_features argsort nb_features columns).1 = (nb_features, scores) ∧
  length features_ids = (length columns - Z.to_nat (- nb_features))%nat ∧
  NoDup features_ids ∧
  (∀ a, (a < length columns)%nat → a ∈ features_ids ↔ a ∉ dropped) ∧
  length dropped = Nat.min (Z.to_nat (- nb_features)) (length columns) ∧
  (nb_features = 0%Z → features_ids ≡ₚ seq 0 (length columns)) ∧
  (proper_diffs columns →
   (∀ i j a b u v,
      (i ≤ j)%nat → features_ids !! i = Some a → features_ids !! j = Some b →
      scores !! a = Some u → scores !! b = Some v → (v <= u)%Q) ∧
   (∀ a b u v,
      a ∈ features_ids → b ∈ dropped →
      scores !! a = Some u → scores !! b = Some v → (v <= u)%Q)).
Proof using argsort_sorts.
  intros Hnb scores features_ids dropped.
  assert (Z.min nb_features (Z.of_nat (length columns)) = nb_features) as Hmin by lia.
  pose proof (length_features_scores columns) as Hwidth.
  subst features_ids dropped scores.
  unfold plot_explanations_features. cbv zeta. cbn [fst snd].
  rewrite Hmin. unfold slice_last.
  destruct (Z.ltb_spec 0 nb_features) as [?|_]; [lia|].
  pose proof (length_argsort (features_scores columns)) as Hlen.
  rewrite Hwidth in Hlen.
  pose proof (NoDup_argsort (features_scores columns)) as Hnodup.
  destruct (argsort_sorts (features_scores columns)) as [Hperm Hsorted].
  set (scores := features_scores columns) in *.
  set (off := Z.to_nat (- nb_features)).
  rewrite <- (take_drop off (argsort scores)) in Hnodup.
  apply NoDup_app in Hnodup as (_ & Hdisjoint & Hkept).
  split; [done|]. split; [|split; [|split; [|split; [|split]]]].
  - by rewrite length_reverse, length_drop, Hlen.
  - by rewrite reverse_Permutation.
  - intros a Ha. rewrite elem_of_reverse. split.
    + intros Hin Hout. by apply (Hdisjoint a).
    + intros Hout.
      assert (a ∈ argsort scores) as Hin
        by (apply elem_of_argsort; by rewrite Hwidth).
      rewrite <- (take_drop off (argsort scores)) in Hin.
      by apply elem_of_app in Hin as [?|?].
  - rewrite length_take, Hlen. done.
  - intros ->. subst off. simpl. rewrite drop_0, reverse_Permutation, Hperm.
    by rewrite Hwidth.
  - intros _. split.
    + intros i j a b u v Hij [Ha Hi]%reverse_lookup_Some [Hb Hj]%reverse_lookup_Some Hu Hv.
      rewrite lookup_drop in Ha, Hb.
      eapply (Hsorted _ _ b a v u); [|exact Hb|exact Ha|done|done]. lia.
    + intros a b u v [pa [Hpa Ha]]%elem_of_reverse%elem_of_drop_lookup
        [pb Hpb]%list_elem_of_lookup Hu Hv.
      apply lookup_take_Some in Hpb as [Hpb Hlt].
      eapply (Hsorted pb pa b a v u); [|done|done|done|done]. lia.
Qed.

End FeatureRanking.

(** * The example script *)

Section ExampleScript.
Context `{E : Engines}.
Import GroupAnomaly group_anomaly_example.

(** The list a call returns, position by position. *)
Lemma predict_returned_shape self dt x_units self' devs :
  predict self dt x_units = (self', Returned devs) →
  length devs = length (ids_target_units self) ∧
  ∀ m uid, ids_target_units self !! m = Some uid →
    ∃ s_m devs_m s_m' c,
      predict_loop (ingest self dt x_units).1 dt
        (take m (ids_target_units self)) [] = (s_m, Returned devs_m) ∧
      diagnose s_m dt uid = (s_m', Returned c) ∧
      devs !! m = Some c.
Proof.
  intros Hret.
  assert (Hout : (predict self dt x_units).2 = Returned devs) by (by rewrite Hret).
  pose proof (predict_returned_ingest _ _ _ _ Hout) as Hing.
  pose proof (ingest_frame self dt x_units) as (_ & Hmids & _).
  rewrite (predict_after_ingest _ _ _ _ Hing), Hmids in Hret.
  split; [by eapply predict_loop_length|].
  intros m uid Hm. by eapply predict_loop_lookup.
Qed.

(** X14. The script labels each printed line with the position of the
    context in the returned list. When the target ids are [0, 1, ...,
    k - 1], as in the script, a call that returns prints [k] lines and the
    label of each is the id of the unit whose turn produced the values on
    the line, with ["high"] exactly for a deviating context. *)
Theorem report_labels_are_unit_ids self dt x_units self' devContextList k :
  ids_target_units self = seq 0 k →
  predict self dt x_units = (self', Returned devContextList) →
  length (report dt devContextList) = k ∧
  ∀ m line, report dt devContextList !! m = Some line →
    line_unit line = m ∧
    ids_target_units self !! m = Some (line_unit line) ∧
    ∃ s_m devs_m s_m' c,
      predict_loop (ingest self dt x_units).1 dt
        (take m (ids_target_units self)) [] = (s_m, Returned devs_m) ∧
      diagnose s_m dt (line_unit line) = (s_m', Returned c) ∧
      line = mkLine m dt (strangeness c) (pvalue c) (deviation c)
               (if is_deviating c then "high" else "low").
Proof.
  intros Hids Hret.
  destruct (predict_returned_shape _ _ _ _ _ Hret) as [Hlen Hpos].
  rewrite Hids, length_seq in Hlen.
  unfold report. rewrite length_imap. split; [done|].
  intros m line Hline. rewrite list_lookup_imap in Hline.
  destruct (devContextList !! m) as [c|] eqn:Hc; [|done].
  injection Hline as <-. simpl.
  assert (Hm : ids_target_units self !! m = Some m).
  { rewrite Hids. apply lookup_seq. apply lookup_lt_Some in Hc. lia. }
  split; [done|]. split; [done|].
  destruct (Hpos m m Hm) as (s_m & devs_m & s_m' & c' & Hpre & Hturn & Hc').
  simplify_eq. by exists s_m, devs_m, s_m', c.
Qed.

(** X15. The script's target ids are 0 to 4. On a dataset of fewer than
    five units its first call of [predict] raises [IndexError], and the
    script ends there with nothing printed. *)
Theorem example_needs_five_units nb_units seven_days seed dt x_units stream :
  (nb_units < 5)%nat →
  length x_units = nb_units →
  let '(_, printed, ended) :=
    stream_loop (gdev nb_units seven_days seed) ((dt, x_units) :: stream) in
  printed = [] ∧ ended = Some IndexError.
Proof.
  intros Hnb Hlen. simpl.
  pose proof (predict_out_of_range_raises nb_units [0; 1; 2; 3; 4]%nat seven_days
                15 median 50 0.6 no_transform 30 seed
                (gdev nb_units seven_days seed) dt x_units nb_units nb_units)
    as Hraise.
  destruct (predict (gdev nb_units seven_days seed) dt x_units) as [g out].
  simpl in Hraise. rewrite Hraise; [done| | | | | |done].
  - do 5 (destruct nb_units as [|nb_units]; [done|]). lia.
  - lia.
  - do 5 (destruct nb_units as [|nb_units];
          [simpl; repeat (constructor; [lia|]); constructor|]). lia.
  - done.
  - apply reachable_full_init.
Qed.

End ExampleScript.

(** * The range of the p-value and of the deviation *)

Section TrailingBound.
Import GroupAnomaly.

Context (E : Engines) (bet : Q → Q).

Hypothesis uniform_unit : ∀ g : @Rng E, (0 <= (@uniform E g).1 <= 1)%Q.
Hypothesis bet_nonneg : ∀ p, (0 <= bet p)%Q.

Local Abbreviation TE := (TrailingMartingale.engines bet E).
Local Abbreviation nonneg := (Forall (λ m : Q, (0 <= m)%Q)).
Local Abbreviation martingales_nonneg :=
  (Forall (λ d : IndividualAnomalyInductive.t (E:=TE),
             nonneg (IndividualAnomalyInductive.mart d))).
Local Abbreviation in_unit c :=
  ((0 <= pvalue c <= 1)%Q ∧ (0 <= deviation c <= 1)%Q).












End TrailingBound.

(** * The further properties on concrete inputs *)

Section ConcreteFurther.
Import GroupAnomaly SimpleEngines group_anomaly_example.

Local Abbreviation step_one := [[1%Q]].
Local Abbreviation step_two := [[1%Q]; [3%Q]].
Local Abbreviation step_three := [[1%Q]; [3%Q]; [4%Q]].
Local Abbreviation two_steps := [(0%Z, step_two); (1%Z, step_two)].





Lemma StronglySorted_lookup_lt {A} (R : relation A) l i j a b :
  StronglySorted R l → (i < j)%nat →
  l !! i = Some a → l !! j = Some b → R a b.
Proof.
  intros Hsorted. revert i j.
  induction Hsorted as [|x l _ IH Hall]; intros i j Hij Hi Hj; [done|].
  destruct j as [|j]; [lia|]. simpl in Hj. destruct i as [|i]; simpl in Hi.
  - injection Hi as <-. by eapply (proj1 (Forall_lookup _ _) Hall).
  - eapply (IH i j); [lia|done|done].
Qed.

Lemma merge_argsort_sorts : sorts_ascending merge_argsort.
Proof.
  intros l. unfold merge_argsort.
  set (R := λ a b : nat, (value_at l a <= value_at l b)%Q).
  split; [apply merge_sort_Permutation|].
  assert (Transitive R) by (intros a b c; unfold R; apply Qle_trans).
  assert (Total R).
  { intros a b. unfold R.
    destruct (Qlt_le_dec (value_at l b) (value_at l a)); [right|left]; lra. }
  intros i j a b u v Hij Ha Hb Hu Hv.
  assert (R a b) as Hab.
  { destruct (decide (i = j)) as [->|Hne].
    - simplify_eq. unfold R. apply Qle_refl.
    - eapply (StronglySorted_lookup_lt R _ i j); [|lia|exact Ha|exact Hb].
      apply StronglySorted_merge_sort; done. }
  unfold R, value_at in Hab. by rewrite Hu, Hv in Hab.
Qed.

Lemma three_features_proper : proper_diffs three_features.
Proof.
  split; [by repeat constructor|].
  exists [1; -3]%Q, 1%Q. split; [listed|]. split; [listed|]. done.
Qed.

(** Two units and the targets [0; 5]: unit 0 has its turn, then the loop
    raises, the step being recorded. *)
Lemma predict_target_out_of_range_witness :
  (predict two_units_bad_target 0 step_two).2 = Raised IndexError ∧
  dfs_original (predict two_units_bad_target 0 step_two).1 !! 1%nat
    = Some [(0%Z, [3%Q])].
Proof.
  destruct (predict_target_out_of_range (E:=engines) 2 [0%nat; 5%nat] 7 15 median
              20 0.6 no_transform 30 0%nat two_units_bad_target 0 step_two
              1%nat 5%nat) as [Hraise Hrec].
  - reflexivity.
  - lia.
  - repeat constructor.
  - discriminate.
  - apply reachable_full_init.
  - reflexivity.
  - split; [exact Hraise|].
    destruct (Hrec 1%nat [3%Q] eq_refl) as (raw & df & y & Hr & _ & Hr' & _).
    vm_compute in Hr. injection Hr as <-. exact Hr'.
Defined.

(** One sample for two units. *)
Lemma predict_short_input_truncates_witness :
  length (dfs_original (predict two_units 0 step_one).1) = 1%nat ∧
  length (detectors (predict two_units 0 step_one).1) = 2%nat.
Proof.
  destruct (predict_short_input_truncates (E:=engines) two_units 0 step_one)
    as (_ & Hraw & _ & _ & Hdet & _).
  - apply init_well_formed.
  - simpl. lia.
  - split; [exact Hraw|exact Hdet].
Defined.

(** One sample for two units, then two. *)
Lemma predict_after_short_input_witness :
  (predict (predict two_units 0 step_one).1 1 step_two).2 = Raised IndexError.
Proof.
  apply (predict_after_short_input (E:=engines) two_units 0 step_one 1 step_two).
  - apply init_well_formed.
  - simpl. lia.
  - reflexivity.
Defined.

(** Three samples for two units. *)
Lemma predict_long_input_raises_witness :
  (predict two_units 0 step_three).2 = Raised IndexError.
Proof.
  apply (predict_long_input_raises (E:=engines) two_units 0 step_three).
  simpl. lia.
Defined.

(** Two steps of two units: the histories of unit 1. *)
Lemma run_records_raw_stream_witness :
  dfs_original (run two_units two_steps).1 !! 1%nat
    = Some [(0%Z, [3%Q]); (1%Z, [3%Q])].
Proof.
  destruct (run_records_raw_stream (E:=engines) 2 [0%nat] 7 15 median 20 0.6
              no_transform 30 0%nat two_steps 1%nat) as [Hraw _].
  - by repeat constructor.
  - lia.
  - exact Hraw.
Defined.

Lemma run_transforms_own_stream_witness :
  dfs (run two_units two_steps).1 !! 1%nat
    = Some [(0%Z, [3%Q]); (1%Z, [3%Q])].
Proof.
  destruct (run_transforms_own_stream (E:=engines) 2 [0%nat] 7 15 median 20 0.6
              no_transform 30 0%nat two_steps 1%nat) as [_ Hdf].
  - by repeat constructor.
  - lia.
  - exact Hdf.
Defined.

(** A default call on a unit that was never fed, where the first block
    raises, then one on two units with the ["pvalue"] transformer that
    returns. *)
Lemma plot_deviations_default_is_shared_witness :
  let raising := mkMatplotlib true (λ _, true) (λ _, false) true in
  let working := mkMatplotlib true (λ n, bool_decide (0 < n)%nat) (λ _, true) true in
  let first := plot_deviations_default raising lone_unit default_plots in
  ending first.2 = drawing_raised data_panel ∧
  first.1 = ["data"; "strangeness"; "deviation"; "threshold"] ∧
  axes_used (plot_deviations_default working two_units_pvalue first.1).2
    = [(0%nat, data_panel); (1%nat, strangeness_panel); (2%nat, deviation_panel)] ∧
  axes_used (plot_deviations_default working two_units_pvalue default_plots).2
    = [(0%nat, data_panel); (1%nat, transformed_data_panel);
       (2%nat, strangeness_panel); (3%nat, deviation_panel)].
Proof.
  intros raising working first.
  destruct (plot_deviations_default_is_shared (E:=engines) raising working
              lone_unit two_units_pvalue eq_refl eq_refl)
    as (Hdefaults & _ & _ & Hlater & Hfresh).
  split; [by vm_compute|]. split; [exact Hdefaults|]. split.
  - apply Hlater. by vm_compute.
  - apply (Hfresh eq_refl). by vm_compute.
Defined.

(** Three features, two asked. *)
Lemma plot_explanations_top_features_witness :
  (plot_explanations_features merge_argsort 2 three_features).2 = [0%nat; 2%nat] ∧
  NoDup (plot_explanations_features merge_argsort 2 three_features).2.
Proof.
  destruct (plot_explanations_top_features merge_argsort merge_argsort_sorts
              2 three_features) as (_ & _ & Hnodup & _).
  - done.
  - split; [by vm_compute|exact Hnodup].
Defined.

(** Three features, minus one asked: the lowest scoring one, feature 1,
    is dropped. *)
Lemma plot_explanations_nonpositive_nb_features_witness :
  let features_ids :=
    (plot_explanations_features merge_argsort (-1) three_features).2 in
  features_ids = [0%nat; 2%nat] ∧
  length features_ids = 2%nat ∧
  (1%nat ∈ features_ids ↔
   1%nat ∉ take 1 (merge_argsort (features_scores three_features))).
Proof.
  intros features_ids.
  destruct (plot_explanations_nonpositive_nb_features merge_argsort
              merge_argsort_sorts (-1) three_features)
    as (_ & Hlen & _ & Hkept & _).
  - done.
  - split; [by vm_compute|]. split; [exact Hlen|].
    apply (Hkept 1%nat). simpl. lia.
Defined.

(** The first step of two units, unit 0 the target. *)
Lemma report_labels_are_unit_ids_witness :
  let devs := [mkDeviationContext 2 1 0 false] in
  report 0 devs = [mkLine 0 0 2 1 0 "low"] ∧ length (report 0 devs) = 1%nat.
Proof.
  intros devs.
  destruct (report_labels_are_unit_ids (E:=engines) two_units 0 step_two
              (predict two_units 0 step_two).1 devs 1) as [Hlen _].
  - reflexivity.
  - by vm_compute.
  - split; [by vm_compute|exact Hlen].
Defined.

(** The script on a dataset of two units. *)
Lemma example_needs_five_units_witness :
  (stream_loop (gdev (E:=engines) 2 7 0%nat) [(0%Z, step_two)]).2
    = Some IndexError.
Proof.
  pose proof (example_needs_five_units (E:=engines) 2 7 0%nat 0 step_two []) as H.
  destruct (stream_loop (gdev (E:=engines) 2 7 0%nat) [(0%Z, step_two)])
    as [[g printed] ended].
  simpl. apply H; [lia|reflexivity].
Defined.

End ConcreteFurther.
